(** * Knowledge-graph extraction pipeline of [sna.py]

    A shallow embedding of [load_knowledge_graph], [message_r1] and
    [create_knowledge_graph], together with the parts of the Python
    run time they rest on: JSON values as [json.loads] produces them,
    dictionaries, exceptions, the [networkx.DiGraph] insertion
    primitives, generators, a heap for the shared message objects, a
    file store and the log of HTTP requests. *)

From Stdlib Require Import ZArith Ascii String.
From stdpp Require Import gmap strings list fin_maps.

Set Warnings "-register-all,-clear-no-such-hyp".

Local Open Scope string_scope.
Local Open Scope list_scope.

(** ** Python values and exceptions *)

(** The exception classes that the modelled code can raise.
    [JSONDecodeError] is what [json.load]/[json.loads] raise on text that
    is not JSON; [FileNotFoundError] is what [open] raises on an absent
    path; [KeyError] and [IndexError] are the two [LookupError] classes. *)
Inductive exn :=
  | FileNotFoundError (path : string)
  | JSONDecodeError
  | KeyError (key : string)
  | IndexError
  | TypeError
  | ValueError
  | AttributeError
  | UnboundLocalError (var : string)
  | ConnectionError.

Inductive result (A : Type) :=
  | Ok (a : A)
  | Err (e : exn).
Arguments Ok {A} a.
Arguments Err {A} e.

#[global] Instance result_ret : MRet result := fun _ a => Ok a.
#[global] Instance result_bind : MBind result := fun _ _ f r =>
  match r with
  | Ok a => f a
  | Err e => Err e
  end.
#[global] Instance result_fmap : FMap result := fun _ _ f r =>
  match r with
  | Ok a => Ok (f a)
  | Err e => Err e
  end.

(** Python's class hierarchy, as far as the properties below need it. *)
Definition is_parse_error (e : exn) : bool :=
  match e with JSONDecodeError => true | _ => false end.

Definition is_lookup_error (e : exn) : bool :=
  match e with KeyError _ | IndexError => true | _ => false end.

(** What [json.loads] returns: [None], [bool], [int], [float], [str],
    [list] and [dict].  A float keeps its literal (the rounding of the
    literal to a binary64 is not modelled).  A dict is kept as the list
    of its items in insertion order, keys pairwise distinct. *)
Inductive json :=
  | JNull
  | JBool (b : bool)
  | JInt (z : Z)
  | JFloat (lit : string)
  | JStr (s : string)
  | JArr (items : list json)
  | JObj (kvs : list (string * json)).

(** [d.get(k)] on the items of a dict. *)
Fixpoint dict_get (k : string) (kvs : list (string * json)) : option json :=
  match kvs with
  | [] => None
  | (k', v) :: rest => if decide (k' = k) then Some v else dict_get k rest
  end.

(** [d[k] = v] on the items of a dict: an existing key keeps its
    position, a new key goes last. *)
Fixpoint dict_set (k : string) (v : json) (kvs : list (string * json))
  : list (string * json) :=
  match kvs with
  | [] => [(k, v)]
  | (k', v') :: rest =>
      if decide (k' = k) then (k, v) :: rest else (k', v') :: dict_set k v rest
  end.

(** [obj[key]] with a [str] key. *)
Definition getitem (obj : json) (key : string) : result json :=
  match obj with
  | JObj kvs =>
      match dict_get key kvs with
      | Some v => Ok v
      | None => Err (KeyError key)
      end
  | _ => Err TypeError
  end.

(** [obj.get(key, default)]: only a dict has the method. *)
Definition get_method (obj : json) (key : string) (default : json) : result json :=
  match obj with
  | JObj kvs =>
      match dict_get key kvs with
      | Some v => Ok v
      | None => Ok default
      end
  | _ => Err AttributeError
  end.

(** A float literal denotes zero when its mantissa has no digit other
    than 0 (underflow of a tiny literal to zero is not modelled). *)
Fixpoint float_literal_is_zero (lit : string) : bool :=
  match lit with
  | EmptyString => true
  | String c rest =>
      if bool_decide (c = "e"%char \/ c = "E"%char) then true
      else if bool_decide (c ∈ ["1"; "2"; "3"; "4"; "5"; "6"; "7"; "8"; "9"; "N"; "I"]%char)
      then false
      else float_literal_is_zero rest
  end.

(** Truth value testing. *)
Definition truthy (v : json) : bool :=
  match v with
  | JNull => false
  | JBool b => b
  | JInt z => negb (Z.eqb z 0)
  | JFloat lit => negb (float_literal_is_zero lit)
  | JStr s => negb (bool_decide (s = EmptyString))
  | JArr items => match items with [] => false | _ => true end
  | JObj kvs => match kvs with [] => false | _ => true end
  end.

Fixpoint chars (s : string) : list json :=
  match s with
  | EmptyString => []
  | String c rest => JStr (String c EmptyString) :: chars rest
  end.

(** What [for x in obj] iterates over: the items of a list, the keys of
    a dict, the characters of a str (here its bytes, one by one). *)
Definition py_iter (obj : json) : result (list json) :=
  match obj with
  | JArr items => Ok items
  | JObj kvs => Ok (map (fun kv => JStr (fst kv)) kvs)
  | JStr s => Ok (chars s)
  | _ => Err TypeError
  end.

(** A [for] loop whose body may raise, threading the loop state. *)
Fixpoint for_each {A S : Type} (body : S -> A -> result S) (xs : list A) (s : S)
  : result S :=
  match xs with
  | [] => Ok s
  | x :: rest => s' ← body s x; for_each body rest s'
  end.

(** ** [networkx.DiGraph] *)

(** A node is any hashable value; of the values [json.loads] produces
    these are [str], [int], [bool] (equal to, and hashing as, the
    integers 0 and 1) and [float].  A float node is told apart by its
    literal; a document that follows the schema has string names only. *)
Inductive node :=
  | NStr (s : string)
  | NInt (z : Z)
  | NFloat (lit : string).

#[global] Instance node_eq_dec : EqDecision node.
Proof. solve_decision. Defined.

#[global] Instance node_countable : Countable node.
Proof.
  refine (inj_countable'
    (fun n => match n with
              | NStr s => inl s
              | NInt z => inr (inl z)
              | NFloat l => inr (inr l)
              end)
    (fun x => match x with
              | inl s => NStr s
              | inr (inl z) => NInt z
              | inr (inr l) => NFloat l
              end) _).
  by intros [].
Defined.

(** Using a value as a dict key or graph node: [None] is refused by
    networkx with [ValueError], a list or dict is unhashable. *)
Definition as_node (v : json) : result node :=
  match v with
  | JStr s => Ok (NStr s)
  | JInt z => Ok (NInt z)
  | JBool b => Ok (NInt (if b then 1 else 0)%Z)
  | JFloat lit => Ok (NFloat lit)
  | JNull => Err ValueError
  | JArr _ | JObj _ => Err TypeError
  end.

Abbreviation attrs := (gmap string json).

(** The three dictionaries of a [DiGraph]: [_node] (node to attribute
    dict), [_adj] (alias [_succ]: node to successors to edge attribute
    dict) and [_pred]. *)
Record DiGraph := mkDiGraph {
  _node : gmap node attrs;
  _adj : gmap node (gmap node attrs);
  _pred : gmap node (gmap node attrs)
}.

Definition empty_graph : DiGraph := mkDiGraph ∅ ∅ ∅.

(** [attr_dict.update(attr)] for keyword arguments [attr]. *)
Definition update (attr old : attrs) : attrs := attr ∪ old.

(** [G.add_node(n, **attr)]: a new node gets empty adjacency dicts and
    the attributes; an existing node has its attributes updated. *)
Definition add_node (G : DiGraph) (n : node) (attr : attrs) : DiGraph :=
  match _adj G !! n with
  | None =>
      mkDiGraph (<[n := update attr ∅]> (_node G))
                (<[n := ∅]> (_adj G))
                (<[n := ∅]> (_pred G))
  | Some _ =>
      mkDiGraph (<[n := update attr (default ∅ (_node G !! n))]> (_node G))
                (_adj G)
                (_pred G)
  end.

(** The step of [add_edge] that makes an endpoint a node when it is not
    one yet: empty adjacency dicts and an empty attribute dict. *)
Definition ensure_node (G : DiGraph) (n : node) : DiGraph :=
  match _adj G !! n with
  | None =>
      mkDiGraph (<[n := ∅]> (_node G)) (<[n := ∅]> (_adj G)) (<[n := ∅]> (_pred G))
  | Some _ => G
  end.

(** [G.add_edge(u, v, **attr)]. *)
Definition add_edge (G : DiGraph) (u v : node) (attr : attrs) : DiGraph :=
  let G1 := ensure_node G u in
  let G2 := ensure_node G1 v in
  let succ_u := default ∅ (_adj G2 !! u) in
  let datadict := update attr (default ∅ (succ_u !! v)) in
  let adj' := <[u := <[v := datadict]> succ_u]> (_adj G2) in
  let pred' := <[v := <[u := datadict]> (default ∅ (_pred G2 !! v))]> (_pred G2) in
  mkDiGraph (_node G2) adj' pred'.

(** [G.number_of_nodes()], also [G.order()]: the length of [_node]. *)
Definition number_of_nodes (G : DiGraph) : nat := size (_node G).

(** [len(G.edges)], which [G.number_of_edges()] also gives: the lengths
    of the successor dicts, summed over the nodes. *)
Definition out_degrees (adj : gmap node (gmap node attrs)) : nat :=
  map_fold (fun _ nbrs k => size nbrs + k) 0 adj.

Definition number_of_edges (G : DiGraph) : nat := out_degrees (_adj G).

(** The invariant networkx keeps: every node has an adjacency entry and
    the other way round. *)
Definition wf (G : DiGraph) : Prop := dom (_adj G) = dom (_node G).

Definition has_node (G : DiGraph) (n : node) : bool :=
  bool_decide (is_Some (_node G !! n)).

(** [G[u][v]] when the edge exists. *)
Definition edge_data (G : DiGraph) (u v : node) : option attrs :=
  nbrs ← _adj G !! u; nbrs !! v.

Definition has_edge (G : DiGraph) (u v : node) : bool :=
  bool_decide (is_Some (edge_data G u v)).

(** [G.pred[v][u]] when the edge exists. *)
Definition pred_data (G : DiGraph) (v u : node) : option attrs :=
  nbrs ← _pred G !! v; nbrs !! u.

(** What a [DiGraph] promises its users: the three dicts have the same
    keys, the predecessor dict holds each edge of the successor dict
    turned round with the same attribute dict, and both ends of an edge
    are nodes. *)
Definition consistent (G : DiGraph) : Prop :=
  wf G /\
  dom (_pred G) = dom (_adj G) /\
  (forall u v, pred_data G v u = edge_data G u v) /\
  (forall u v, is_Some (edge_data G u v) ->
               is_Some (_node G !! u) /\ is_Some (_node G !! v)).

(** ** Graph materialisation *)

(** The two loops of [load_knowledge_graph] (lines 39-47), on the value
    [json.load] returned. *)
Definition load_build (graph_data : json) : result DiGraph :=
  let G := empty_graph in
  entities ← getitem graph_data "entities";
  es ← py_iter entities;
  G ← for_each (fun G entity =>
         name ← getitem entity "name";
         ty ← getitem entity "type";
         n ← as_node name;
         Ok (add_node G n {["node_type" := ty]})) es G;
  relationships ← getitem graph_data "relationships";
  rs ← py_iter relationships;
  for_each (fun G rel =>
         src ← getitem rel "source";
         tgt ← getitem rel "target";
         descr ← getitem rel "description";
         u ← as_node src;
         v ← as_node tgt;
         Ok (add_edge G u v {["relationship" := descr]})) rs G.

(** ** Extraction documents

    The shape the schema of [message_r1] gives a document: entities,
    relationships and context items, every field a string. *)
Record Entity := mkEntity {
  e_name : string;
  e_type : string;
  e_subtype : string;
  e_description : string
}.

Record Relationship := mkRelationship {
  r_source : string;
  r_target : string;
  r_type : string;
  r_description : string
}.

#[global] Instance Entity_eq_dec : EqDecision Entity.
Proof. solve_decision. Defined.

#[global] Instance Relationship_eq_dec : EqDecision Relationship.
Proof. solve_decision. Defined.

Record ContextItem := mkContextItem {
  c_aspect : string;
  c_description : string
}.

Record ExtractionDocument := mkDocument {
  entities : list Entity;
  relationships : list Relationship;
  context : list ContextItem
}.

(** A decoded value that has the fields of a record: a dict (its keys
    in any order, other keys allowed) with a string under each name. *)
Definition has_field (v : json) (key value : string) : Prop :=
  getitem v key = Ok (JStr value).

Definition is_entity (v : json) (e : Entity) : Prop :=
  has_field v "name" (e_name e) /\ has_field v "type" (e_type e) /\
  has_field v "subtype" (e_subtype e) /\ has_field v "description" (e_description e).

Definition is_relationship (v : json) (r : Relationship) : Prop :=
  has_field v "source" (r_source r) /\ has_field v "target" (r_target r) /\
  has_field v "type" (r_type r) /\ has_field v "description" (r_description r).

Definition is_context_item (v : json) (c : ContextItem) : Prop :=
  has_field v "aspect" (c_aspect c) /\ has_field v "description" (c_description c).

(** [v] is the decoded form of the document [D]. *)
Definition is_document (v : json) (D : ExtractionDocument) : Prop :=
  exists es rs cs,
    getitem v "entities" = Ok (JArr es) /\ Forall2 is_entity es (entities D) /\
    getitem v "relationships" = Ok (JArr rs) /\ Forall2 is_relationship rs (relationships D) /\
    getitem v "context" = Ok (JArr cs) /\ Forall2 is_context_item cs (context D).

(** The data model asks that an entity name is unique within a graph. *)
Definition unique_names (D : ExtractionDocument) : Prop :=
  NoDup (map e_name (entities D)).

Definition entity_names (D : ExtractionDocument) : list string :=
  map e_name (entities D).

(** The names a relationship list refers to, and its ordered pairs. *)
Definition endpoints (D : ExtractionDocument) : list string :=
  flat_map (fun r => [r_source r; r_target r]) (relationships D).

Definition pairs (D : ExtractionDocument) : list (string * string) :=
  map (fun r => (r_source r, r_target r)) (relationships D).

(** The description of the last relationship from [s] to [t]. *)
Definition last_description (rs : list Relationship) (s t : string) : option string :=
  fold_left (fun acc r =>
               if bool_decide (r_source r = s /\ r_target r = t)
               then Some (r_description r) else acc) rs None.

(** The type of the last entity named [n]. *)
Definition last_type (es : list Entity) (n : string) : option string :=
  fold_left (fun acc e => if bool_decide (e_name e = n) then Some (e_type e) else acc)
            es None.

Definition node_type_attr (ty : string) : attrs := {["node_type" := JStr ty]}.
Definition relationship_attr (d : string) : attrs := {["relationship" := JStr d]}.

(** The canonical decoded form of a document. *)
Definition entity_json (e : Entity) : json :=
  JObj [("name", JStr (e_name e)); ("type", JStr (e_type e));
        ("subtype", JStr (e_subtype e)); ("description", JStr (e_description e))].

Definition relationship_json (r : Relationship) : json :=
  JObj [("source", JStr (r_source r)); ("target", JStr (r_target r));
        ("type", JStr (r_type r)); ("description", JStr (r_description r))].

Definition context_json (c : ContextItem) : json :=
  JObj [("aspect", JStr (c_aspect c)); ("description", JStr (c_description c))].

Definition document_json (D : ExtractionDocument) : json :=
  JObj [("entities", JArr (map entity_json (entities D)));
        ("relationships", JArr (map relationship_json (relationships D)));
        ("context", JArr (map context_json (context D)))].

(** What the two loops leave for a document: one [add_node] per
    entity, then one [add_edge] per relationship. *)
Definition add_entity (G : DiGraph) (e : Entity) : DiGraph :=
  add_node G (NStr (e_name e)) {["node_type" := JStr (e_type e)]}.

Definition add_relationship (G : DiGraph) (r : Relationship) : DiGraph :=
  add_edge G (NStr (r_source r)) (NStr (r_target r))
           {["relationship" := JStr (r_description r)]}.

Definition build_from (es : list Entity) (rs : list Relationship) : DiGraph :=
  fold_left add_relationship rs (fold_left add_entity es empty_graph).

Definition build (D : ExtractionDocument) : DiGraph :=
  build_from (entities D) (relationships D).

(** ** The schema vocabularies of [message_r1] *)

Definition nl : string := String "010"%char EmptyString.
Definition dq : string := String "034"%char EmptyString.

Definition VALID_ENTITY_TYPES : list string :=
  ["person"; "organization"; "policy"; "issue"; "impact"; "location"; "event"].

Definition ENTITY_SUBTYPES : list (string * list string) :=
  [("person", ["politician"; "activist"; "expert"]);
   ("organization", ["government"; "NGO"; "corporation"]);
   ("policy", ["domestic"; "foreign"; "economic"]);
   ("issue", []);
   ("impact", []);
   ("location", []);
   ("event", [])].

(** Line 78: one line per type that has subtypes. *)
Definition subtypes_info : string :=
  String.concat nl
    (map (fun kv => "- " +:+ fst kv +:+ ": " +:+ String.concat ", " (snd kv))
         (filter (fun kv => snd kv <> []) ENTITY_SUBTYPES)).

Definition RELATIONSHIP_TYPES : list string :=
  ["implements"; "opposes"; "supports"; "criticizes";
   "collaborates_with"; "impacts"; "responds_to"].

(** What an f-string prints for a list of plain words: [repr] of the
    list, each word in single quotes. *)
Definition repr_list (l : list string) : string :=
  "[" +:+ String.concat ", " (map (fun s => "'" +:+ s +:+ "'") l) +:+ "]".

Definition jstrings (l : list string) : json := JArr (map JStr l).

Definition string_field : json := JObj [("type", JStr "string")].

(** Lines 86-131. *)
Definition json_schema : json :=
  JObj [
    ("type", JStr "object");
    ("properties", JObj [
      ("entities", JObj [
        ("type", JStr "array");
        ("items", JObj [
          ("type", JStr "object");
          ("properties", JObj [
            ("name", string_field);
            ("type", JObj [
              ("type", JStr "string");
              ("enum", JArr [jstrings VALID_ENTITY_TYPES])]);
            ("subtype", JObj [
              ("type", JStr "string");
              ("enum", jstrings (flat_map (fun kv => snd kv) ENTITY_SUBTYPES))]);
            ("description", string_field)]);
          ("required", jstrings ["name"; "type"; "subtype"; "description"])])]);
      ("relationships", JObj [
        ("type", JStr "array");
        ("items", JObj [
          ("type", JStr "object");
          ("properties", JObj [
            ("source", string_field);
            ("target", string_field);
            ("type", JObj [
              ("type", JStr "string");
              ("enum", jstrings RELATIONSHIP_TYPES)]);
            ("description", string_field)]);
          ("required", jstrings ["source"; "target"; "type"; "description"])])]);
      ("context", JObj [
        ("type", JStr "array");
        ("items", JObj [
          ("type", JStr "object");
          ("properties", JObj [
            ("aspect", string_field);
            ("description", string_field)]);
          ("required", jstrings ["aspect"; "description"])])])]);
    ("required", jstrings ["entities"; "relationships"; "context"])].

(** Lines 144-185: the f-string assigned to the system message. *)
Definition system_prompt : string :=
  String.concat nl [
    "You are a Knowledge Graph creator specializing in news article analysis. Your task is to create a detailed knowledge graph that captures key entities, their relationships, and the broader context of the story.";
    EmptyString;
    "        Entity types MUST be one of: " +:+ String.concat ", " VALID_ENTITY_TYPES;
    "        All entity type values must be lowercase.";
    EmptyString;
    "        When analyzing the article:";
    "        1. Identify ALL key actors (people, organizations) and their roles";
    "        2. Include specific policies, issues, and their impacts";
    "        3. Capture responses and reactions from different parties";
    "        4. Note any justifications or reasoning given for actions";
    "        5. Include relevant locations and events";
    EmptyString;
    "        Relationships should:";
    "        - Be binary (one source to one target)";
    "        - Use clear, active verbs in present tense (e.g., " +:+ dq +:+ "implements" +:+ dq +:+ ", " +:+ dq +:+ "opposes" +:+ dq +:+ ", " +:+ dq +:+ "announces" +:+ dq +:+ ", " +:+ dq +:+ "responds" +:+ dq +:+ ", " +:+ dq +:+ "justifies" +:+ dq +:+ ")";
    "        - Capture the nature of interactions between entities";
    "        - Include both direct actions and reactions";
    "        - Show cause-and-effect connections";
    EmptyString;
    "        Context should include:";
    "        - Economic implications";
    "        - Political dynamics";
    "        - International relations";
    "        - Historical context (if mentioned)";
    "        - Potential impacts or consequences";
    EmptyString;
    "        Follow this JSON structure strictly:";
    "        - entities: array of objects with name (string), type (string), subtype (string) and description (string)";
    "        - relationships: array of objects with source (string), target (string), type (string), and description (string)";
    "        - context: array of objects with aspect (string) and description (string)";
    EmptyString;
    "        Make sure to capture the full complexity of the story while maintaining clear, direct connections.";
    "        ";
    "        Additional instructions:";
    "        1. Assign subtypes to entities where applicable. Valid subtypes are: ";
    "            " +:+ subtypes_info;
    "        2. Use only these relationship types: " +:+ repr_list RELATIONSHIP_TYPES;
    "        3. Include temporal information for events and actions in ISO date format (YYYY-MM-DD) where possible.";
    "        4. Assign confidence scores (0-1) to entities and relationships based on how certain the information is.";
    "        5. Group entities or relationships into broader topics where relevant.";
    "        6. Flag potentially controversial or unverified claims.";
    "        "
  ].

(** ** The world the program runs in *)

(** Mutable Python objects live on a heap.  The conversation is a list
    object holding references to message dicts, so that a dict reached
    through two names is one object. *)
Abbreviation loc := positive.

Inductive object :=
  | OList (items : list loc)
  | ODict (kvs : list (string * json)).

(** A value held in a dict literal: plain data or a reference. *)
Inductive pyval :=
  | PData (v : json)
  | PRef (l : loc).

Record request := mkRequest {
  req_url : string;
  req_headers : list (string * string);
  req_json : json;
  req_stream : bool
}.

(** The response object of [requests]: [resp_lines] is what
    [iter_lines()] produces. *)
Record response := mkResponse {
  status_code : Z;
  resp_lines : list string
}.

Record world := mkWorld {
  heap : gmap loc object;
  files : gmap string string;
  sent : list request
}.

Definition set_heap (h : gmap loc object) (w : world) : world :=
  mkWorld h (files w) (sent w).

(** [open(path, 'w')] then [f.write(text)]: the file is replaced. *)
Definition write_file (path text : string) (w : world) : world :=
  mkWorld (heap w) (<[path := text]> (files w)) (sent w).

(** [open(path, 'r')] then reading it whole. *)
Definition read_file (path : string) (w : world) : result string :=
  match files w !! path with
  | Some text => Ok text
  | None => Err (FileNotFoundError path)
  end.

(** Serialising an object for a request body follows the references at
    the time of the call.  References nested deeper than there are
    objects on the heap go in a circle, for which [json.dumps] raises
    [ValueError]. *)
Fixpoint dumps_ref (fuel : nat) (h : gmap loc object) (l : loc) : result json :=
  match fuel with
  | O => Err ValueError
  | S fuel' =>
      match h !! l with
      | Some (ODict kvs) => Ok (JObj kvs)
      | Some (OList items) => JArr <$> mapM (dumps_ref fuel' h) items
      | None => Err ValueError
      end
  end.

Definition dumps_val (h : gmap loc object) (v : pyval) : result json :=
  match v with
  | PData d => Ok d
  | PRef l => dumps_ref (S (size h)) h l
  end.

Definition dumps_dict (h : gmap loc object) (d : list (string * pyval)) : result json :=
  JObj <$> mapM (fun kv => v ← dumps_val h (snd kv); Ok (fst kv, v)) d.

(** [messages[0]["content"] = content].  A location without an object
    does not occur in a run of the program. *)
Definition set_first_content (messages : loc) (content : string) (h : gmap loc object)
  : result (gmap loc object) :=
  match h !! messages with
  | Some (OList items) =>
      match items !! 0%nat with
      | Some m0 =>
          match h !! m0 with
          | Some (ODict kvs) =>
              Ok (<[m0 := ODict (dict_set "content" (JStr content) kvs)]> h)
          | _ => Err TypeError
          end
      | None => Err IndexError
      end
  | Some (ODict _) => Err (KeyError "0")
  | None => Err TypeError
  end.

(** ** Generators *)

(** Calling a function whose body contains [yield] runs none of it: the
    call returns a generator object, the suspended frame with its
    arguments. *)
Record generator := mkGenerator {
  gen_messages : loc;
  gen_stream : bool
}.

(** What a generator's [return] carries (inside [StopIteration]). *)
Inductive retval :=
  | RetStr (s : string)
  | RetResponse (r : response).

(** Running a generator to its end: the values it yields, in order,
    and how it stops, by returning or by raising. *)
Record run := mkRun {
  yielded : list json;
  outcome : result retval
}.

Definition raising (e : exn) : run := mkRun [] (Err e).
Definition yielding (v : json) (r : run) : run := mkRun (v :: yielded r) (outcome r).

Section Pipeline.

(** Outside the repository: the JSON decoder, the generation endpoint
    behind [requests.post], and the drawing of a finished graph. *)
Variable json_loads : string -> result json.
Variable endpoint : request -> result response.
Variable render : DiGraph -> result unit.

(** [load_knowledge_graph(filename)], lines 35-49. *)
Definition load_knowledge_graph (filename : string) (w : world)
  : result (DiGraph * json) :=
  text ← read_file filename w;
  graph_data ← json_loads text;
  G ← load_build graph_data;
  Ok (G, graph_data).

(** Lines 189-202: the loop over the lines of a streamed response. *)
Fixpoint stream_loop (lines : list string) (full_response : string) : run :=
  match lines with
  | [] => mkRun [] (Ok (RetStr full_response))
  | line :: rest =>
      if decide (line = EmptyString) then stream_loop rest full_response
      else
        match json_loads line with
        | Err e => raising e
        | Ok json_response =>
            match get_method json_response "done" JNull with
            | Err e => raising e
            | Ok done =>
                if negb (truthy done) then
                  match (message ← get_method json_response "message" (JObj []);
                         get_method message "content" (JStr EmptyString)) with
                  | Err e => raising e
                  | Ok (JStr chunk) =>
                      yielding (JStr chunk) (stream_loop rest (full_response +:+ chunk))
                  | Ok _ => raising TypeError
                  end
                else yielding json_response (stream_loop rest full_response)
            end
        end
  end.

(** The body of [message_r1], lines 53-205, run when the generator is
    first advanced. *)
Definition message_r1_body (messages : loc) (stream : bool) (w : world) : run * world :=
  let url := "http://localhost:11434/api/chat" in
  let headers := [("Content-Type", "application/json")] in
  let data :=
    [("model", PData (JStr "qwen2.5-coder:14b"));
     ("messages", PRef messages);
     ("stream", PData (JBool stream));
     ("format", PData json_schema);
     ("options", PData (JObj [("temperature", JInt 0)]))] in
  match set_first_content messages system_prompt (heap w) with
  | Err e => (raising e, w)
  | Ok h =>
      let w := set_heap h w in
      match dumps_dict (heap w) data with
      | Err e => (raising e, w)
      | Ok body =>
          let req := mkRequest url headers body stream in
          let w := mkWorld (heap w) (files w) (sent w ++ [req]) in
          match endpoint req with
          | Err e => (raising e, w)
          | Ok response =>
              if stream then (stream_loop (resp_lines response) EmptyString, w)
              else (mkRun [] (Ok (RetResponse response)), w)
          end
      end
  end.

(** [message_r1(messages, stream)]: a generator function. *)
Definition message_r1 (messages : loc) (stream : bool) (w : world) : generator * world :=
  (mkGenerator messages stream, w).

(** Advancing a generator object until it stops, as a [for] loop does. *)
Definition exhaust (g : generator) (w : world) : run * world :=
  message_r1_body (gen_messages g) (gen_stream g) w.

(** Lines 239-245: the caller's loop over the yielded items. *)
Definition accumulate (items : list json) : string :=
  fold_left (fun response_full chunk =>
               match chunk with
               | JStr s => response_full +:+ s
               | _ => response_full
               end) items EmptyString.

(** Reading a local variable that may not have been assigned. *)
Definition local {A : Type} (name : string) (v : option A) : result A :=
  match v with
  | Some a => Ok a
  | None => Err (UnboundLocalError name)
  end.

(** Lines 266-348. *)
Definition show_and_return (show_graph : bool)
    (G : option DiGraph) (graph_data : option json) : result (DiGraph * json) :=
  _ ← (if show_graph then g ← local "G" G; render g else Ok tt);
  g ← local "G" G;
  d ← local "graph_data" graph_data;
  Ok (g, d).

Definition nonempty (s : option string) : bool :=
  match s with
  | Some (String _ _) => true
  | _ => false
  end.

(** Lines 232-235: the conversation, a new list of two new dicts. *)
Definition new_conversation (article_text : string) (w : world) : loc * world :=
  let h := heap w in
  let m0 := fresh (dom h) in
  let h := <[m0 := ODict [("role", JStr "system");
                          ("content", JStr "You are a Knowledge Graph creator...")]]> h in
  let m1 := fresh (dom h) in
  let h := <[m1 := ODict [("role", JStr "user");
                          ("content",
                           JStr ("Please create a knowledge graph from the provided article: "
                                 +:+ nl +:+ article_text +:+ nl +:+ nl))]]> h in
  let messages := fresh (dom h) in
  let h := <[messages := OList [m0; m1]]> h in
  (messages, set_heap h w).

(** Lines 232-245: the conversation is built, the generator made and
    run to its end by the [for] loop. *)
Definition fetch (article_text : string) (w : world) : run * world :=
  let '(messages, w) := new_conversation article_text w in
  let '(g, w) := message_r1 messages true w in
  exhaust g w.

(** Lines 255-263: the two loops of [create_knowledge_graph]. *)
Definition live_build (graph_data : json) : result DiGraph :=
  let G := empty_graph in
  entities ← getitem graph_data "entities";
  es ← py_iter entities;
  G ← for_each (fun G entity =>
         name ← getitem entity "name";
         ty ← getitem entity "type";
         n ← as_node name;
         Ok (add_node G n {["node_type" := ty]})) es G;
  relationships ← getitem graph_data "relationships";
  rs ← py_iter relationships;
  for_each (fun G rel =>
         src ← getitem rel "source";
         tgt ← getitem rel "target";
         descr ← getitem rel "description";
         u ← as_node src;
         v ← as_node tgt;
         Ok (add_edge G u v {["relationship" := descr]})) rs G.

(** [create_knowledge_graph(article_text, load_file, show_graph)],
    lines 209-348.  The [profile] wrapper passes arguments, result and
    exceptions through. *)
Definition create_knowledge_graph
    (article_text load_file : option string) (show_graph : bool) (w : world)
  : result (DiGraph * json) * world :=
  if nonempty load_file then
    match load_knowledge_graph "network_dict.json" w with
    | Err e => (Err e, w)
    | Ok (G, data) => (show_and_return show_graph (Some G) None, w)
    end
  else if nonempty article_text then
    let '(messages, w) := new_conversation (default EmptyString article_text) w in
    let '(g, w) := message_r1 messages true w in
    let '(r, w) := exhaust g w in
    let response_full := accumulate (yielded r) in
    match outcome r with
    | Err e => (Err e, w)
    | Ok _ =>
        let w := write_file "network_dict.json" response_full w in
        (graph_data ← json_loads response_full;
         G ← live_build graph_data;
         show_and_return show_graph (Some G) (Some graph_data), w)
    end
  else (show_and_return show_graph None None, w).

End Pipeline.

(** ** The request and the stream, as the endpoint sees them *)

(** The request [message_r1] posts for a conversation that serialises
    to [conversation]. *)
Definition chat_request (conversation : json) (stream : bool) : request :=
  mkRequest "http://localhost:11434/api/chat"
    [("Content-Type", "application/json")]
    (JObj [("model", JStr "qwen2.5-coder:14b");
           ("messages", conversation);
           ("stream", JBool stream);
           ("format", json_schema);
           ("options", JObj [("temperature", JInt 0)])])
    stream.

Definition user_content (article_text : string) : string :=
  "Please create a knowledge graph from the provided article: "
  +:+ nl +:+ article_text +:+ nl +:+ nl.

(** The conversation of [create_knowledge_graph] at the time it is
    sent. *)
Definition conversation_json (article_text : string) : json :=
  JArr [JObj [("role", JStr "system"); ("content", JStr system_prompt)];
        JObj [("role", JStr "user"); ("content", JStr (user_content article_text))]].

(** A record of the stream that carries the text fragment [s]: a dict
    whose [done] is missing or false and whose [message.content] is [s]. *)
Definition chunk_record (rec : json) (s : string) : Prop :=
  exists d, get_method rec "done" JNull = Ok d /\ truthy d = false /\
            (message ← get_method rec "message" (JObj []);
             get_method message "content" (JStr EmptyString)) = Ok (JStr s).

(** The record that ends the stream: a dict whose [done] is true. *)
Definition terminal_record (rec : json) : Prop :=
  exists d, get_method rec "done" JNull = Ok d /\ truthy d = true.

Definition nonempty_lines (lines : list string) : list string :=
  filter (fun line => line <> EmptyString) lines.

(** The fragments put end to end. *)
Definition concat_fragments (frags : list string) : string :=
  fold_right String.append EmptyString frags.

(** Following keys down a nest of dicts. *)
Fixpoint at_path (v : json) (path : list string) : option json :=
  match path with
  | [] => Some v
  | key :: rest =>
      match v with
      | JObj kvs => match dict_get key kvs with
                    | Some v' => at_path v' rest
                    | None => None
                    end
      | _ => None
      end
  end.

(** [needle in hay] for strings. *)
Fixpoint contains (needle hay : string) : bool :=
  String.prefix needle hay ||
  match hay with
  | EmptyString => false
  | String _ rest => contains needle rest
  end.

(** ** A JSON decoder

    [json.loads] of the Python standard library, on text held as its
    bytes: the grammar of [json.decoder] and [json.scanner] in strict
    mode.  Used where a statement needs a concrete decoder. *)
Module Decoder.

Local Open Scope char_scope.
Local Open Scope list_scope.

Definition is_ws (c : ascii) : bool :=
  bool_decide (c ∈ [" "; "009"; "010"; "013"]).

Fixpoint skip_ws (cs : list ascii) : list ascii :=
  match cs with
  | c :: rest => if is_ws c then skip_ws rest else cs
  | [] => []
  end.

Definition digit_val (c : ascii) : option Z :=
  let n := Z.of_nat (nat_of_ascii c) in
  if (48 <=? n)%Z && (n <=? 57)%Z then Some (n - 48)%Z else None.

Definition hex_val (c : ascii) : option Z :=
  let n := Z.of_nat (nat_of_ascii c) in
  if (48 <=? n)%Z && (n <=? 57)%Z then Some (n - 48)%Z
  else if (65 <=? n)%Z && (n <=? 70)%Z then Some (n - 55)%Z
  else if (97 <=? n)%Z && (n <=? 102)%Z then Some (n - 87)%Z
  else None.

Definition hex4 (a b c d : ascii) : option Z :=
  x ← hex_val a; y ← hex_val b; z ← hex_val c; t ← hex_val d;
  Some (((x * 16 + y) * 16 + z) * 16 + t)%Z.

Definition byte (n : Z) : ascii := ascii_of_nat (Z.to_nat n).

(** The UTF-8 bytes of a code point. *)
Definition utf8 (cp : Z) : list ascii :=
  if (cp <? 128)%Z then [byte cp]
  else if (cp <? 2048)%Z then
    [byte (192 + cp / 64); byte (128 + cp mod 64)]
  else if (cp <? 65536)%Z then
    [byte (224 + cp / 4096); byte (128 + (cp / 64) mod 64); byte (128 + cp mod 64)]
  else
    [byte (240 + cp / 262144); byte (128 + (cp / 4096) mod 64);
     byte (128 + (cp / 64) mod 64); byte (128 + cp mod 64)].

Definition is_high (cp : Z) : bool := (55296 <=? cp)%Z && (cp <? 56320)%Z.
Definition is_low (cp : Z) : bool := (56320 <=? cp)%Z && (cp <? 57344)%Z.

Definition unescape (e : ascii) : option ascii :=
  if bool_decide (e = "034") then Some "034"
  else if bool_decide (e = "\") then Some "\"
  else if bool_decide (e = "/") then Some "/"
  else if bool_decide (e = "b") then Some "008"
  else if bool_decide (e = "f") then Some "012"
  else if bool_decide (e = "n") then Some "010"
  else if bool_decide (e = "r") then Some "013"
  else if bool_decide (e = "t") then Some "009"
  else None.

(** What follows [\u]: four hex digits, and a second escape when the
    two are a surrogate pair. *)
Definition scan_u (cs : list ascii) : option (Z * list ascii) :=
  match cs with
  | a :: b :: c :: d :: rest =>
      cp ← hex4 a b c d;
      match rest with
      | bs :: u :: a' :: b' :: c' :: d' :: rest' =>
          if bool_decide (bs = "\" /\ u = "u") && is_high cp then
            match hex4 a' b' c' d' with
            | Some lo =>
                if is_low lo
                then Some (65536 + (cp - 55296) * 1024 + (lo - 56320), rest')%Z
                else Some (cp, rest)
            | None => Some (cp, rest)
            end
          else Some (cp, rest)
      | _ => Some (cp, rest)
      end
  | _ => None
  end.

(** The inside of a string, after its opening quote. *)
Fixpoint scan_string (fuel : nat) (cs : list ascii) : option (list ascii * list ascii) :=
  match fuel, cs with
  | S fuel', c :: rest =>
      if bool_decide (c = "034") then Some ([], rest)
      else if bool_decide (c = "\") then
        match rest with
        | e :: rest1 =>
            if bool_decide (e = "u") then
              '(cp, rest2) ← scan_u rest1;
              '(s, r) ← scan_string fuel' rest2;
              Some (utf8 cp ++ s, r)
            else
              c' ← unescape e;
              '(s, r) ← scan_string fuel' rest1;
              Some (c' :: s, r)
        | [] => None
        end
      else if (nat_of_ascii c <? 32)%nat then None
      else '(s, r) ← scan_string fuel' rest; Some (c :: s, r)
  | _, _ => None
  end.

Fixpoint take_digits (cs : list ascii) : list ascii * list ascii :=
  match cs with
  | c :: rest =>
      match digit_val c with
      | Some _ => let '(ds, r) := take_digits rest in (c :: ds, r)
      | None => ([], cs)
      end
  | [] => ([], [])
  end.

Definition digits_val (ds : list ascii) : Z :=
  fold_left (fun acc c => (acc * 10 + default 0 (digit_val c))%Z) ds 0%Z.

(** An optional minus sign, then a single 0 or digits that do not
    start with 0: the integer part, and what follows it. *)
Definition scan_int (cs : list ascii) : option (list ascii * list ascii) :=
  let '(sign, cs') :=
    match cs with
    | c :: r => if bool_decide (c = "-") then ([c], r) else ([], cs)
    | [] => ([], cs)
    end in
  match cs' with
  | c :: r =>
      if bool_decide (c = "0") then Some (sign ++ [c], r)
      else
        match take_digits cs' with
        | ([], _) => None
        | (ds, r') => Some (sign ++ ds, r')
        end
  | [] => None
  end.

(** The optional fraction: a point and at least one digit. *)
Definition scan_frac (cs : list ascii) : list ascii * list ascii :=
  match cs with
  | c :: r =>
      if bool_decide (c = ".") then
        match take_digits r with
        | ([], _) => ([], cs)
        | (ds, r') => (c :: ds, r')
        end
      else ([], cs)
  | [] => ([], cs)
  end.

(** The optional exponent: e or E, an optional sign, at least one digit. *)
Definition scan_exp (cs : list ascii) : list ascii * list ascii :=
  match cs with
  | e :: r =>
      if bool_decide (e = "e" \/ e = "E") then
        let '(sign, r1) :=
          match r with
          | s :: r' => if bool_decide (s = "-" \/ s = "+") then ([s], r') else ([], r)
          | [] => ([], r)
          end in
        match take_digits r1 with
        | ([], _) => ([], cs)
        | (ds, r2) => (e :: sign ++ ds, r2)
        end
      else ([], cs)
  | [] => ([], cs)
  end.

Definition int_val (lit : list ascii) : Z :=
  match lit with
  | c :: ds => if bool_decide (c = "-") then (- digits_val ds)%Z else digits_val lit
  | [] => 0%Z
  end.

Definition scan_number (cs : list ascii) : option (json * list ascii) :=
  '(i, r) ← scan_int cs;
  let '(f, r1) := scan_frac r in
  let '(e, r2) := scan_exp r1 in
  match f, e with
  | [], [] => Some (JInt (int_val i), r2)
  | _, _ => Some (JFloat (string_of_list_ascii (i ++ f ++ e)), r2)
  end.

Definition strip_prefix (p : string) (cs : list ascii) : option (list ascii) :=
  let pl := list_ascii_of_string p in
  if bool_decide (take (length pl) cs = pl) then Some (drop (length pl) cs) else None.

Definition scan_constant (cs : list ascii) : option (json * list ascii) :=
  match strip_prefix "null" cs with Some r => Some (JNull, r) | None =>
  match strip_prefix "true" cs with Some r => Some (JBool true, r) | None =>
  match strip_prefix "false" cs with Some r => Some (JBool false, r) | None =>
  match strip_prefix "NaN" cs with Some r => Some (JFloat "NaN", r) | None =>
  match strip_prefix "Infinity" cs with Some r => Some (JFloat "Infinity", r) | None =>
  match strip_prefix "-Infinity" cs with Some r => Some (JFloat "-Infinity", r) | None =>
  None end end end end end end.

(** One value; then the rest of an array after its first bracket and
    of an object after its first brace.  Each call consumes input, so
    fuel equal to the length of the text is never used up. *)
Fixpoint scan_value (fuel : nat) (cs : list ascii) : option (json * list ascii) :=
  match fuel, cs with
  | S fuel', c :: rest =>
      if bool_decide (c = "034") then
        '(s, r) ← scan_string (length rest) rest;
        Some (JStr (string_of_list_ascii s), r)
      else if bool_decide (c = "[") then
        match skip_ws rest with
        | c' :: r =>
            if bool_decide (c' = "]") then Some (JArr [], r)
            else scan_items fuel' (c' :: r) []
        | [] => None
        end
      else if bool_decide (c = "{") then
        match skip_ws rest with
        | c' :: r =>
            if bool_decide (c' = "}") then Some (JObj [], r)
            else scan_members fuel' (c' :: r) []
        | [] => None
        end
      else
        match scan_constant cs with
        | Some res => Some res
        | None => scan_number cs
        end
  | _, _ => None
  end
with scan_items (fuel : nat) (cs : list ascii) (acc : list json)
  : option (json * list ascii) :=
  match fuel with
  | O => None
  | S fuel' =>
      '(v, r) ← scan_value fuel' cs;
      match skip_ws r with
      | c :: r' =>
          if bool_decide (c = ",") then scan_items fuel' (skip_ws r') (acc ++ [v])
          else if bool_decide (c = "]") then Some (JArr (acc ++ [v]), r')
          else None
      | [] => None
      end
  end
with scan_members (fuel : nat) (cs : list ascii) (acc : list (string * json))
  : option (json * list ascii) :=
  match fuel, cs with
  | S fuel', q :: rest =>
      if bool_decide (q = "034") then
        '(k, r) ← scan_string (length rest) rest;
        match skip_ws r with
        | colon :: r1 =>
            if bool_decide (colon = ":") then
              '(v, r2) ← scan_value fuel' (skip_ws r1);
              let acc' := dict_set (string_of_list_ascii k) v acc in
              match skip_ws r2 with
              | c :: r3 =>
                  if bool_decide (c = ",") then scan_members fuel' (skip_ws r3) acc'
                  else if bool_decide (c = "}") then Some (JObj acc', r3)
                  else None
              | [] => None
              end
            else None
        | [] => None
        end
      else None
  | _, _ => None
  end.

Definition loads (s : string) : result json :=
  let cs := list_ascii_of_string s in
  match scan_value (S (length cs)) (skip_ws cs) with
  | Some (v, r) =>
      match skip_ws r with
      | [] => Ok v
      | _ => Err JSONDecodeError
      end
  | None => Err JSONDecodeError
  end.

End Decoder.

(** ** Labels for the drawing *)

(** [s.split(sep)] for the one-character separator [sep]: the pieces
    between its occurrences, at least one. *)
Fixpoint split_on (sep : ascii) (s : string) : list string :=
  match s with
  | EmptyString => [EmptyString]
  | String c rest =>
      if bool_decide (c = sep) then EmptyString :: split_on sep rest
      else match split_on sep rest with
           | piece :: pieces => String c piece :: pieces
           | [] => [String c EmptyString]
           end
  end.

(** [s * n] for a str. *)
Fixpoint str_mul (s : string) (n : nat) : string :=
  match n with
  | O => EmptyString
  | S k => s +:+ str_mul s k
  end.

(** A str in which the newline character does not occur. *)
Fixpoint one_line (s : string) : bool :=
  match s with
  | EmptyString => true
  | String c rest => negb (bool_decide (c = "010"%char)) && one_line rest
  end.

Section Labels.

(** Outside the repository: [textwrap.fill(text, width)] and the
    drawing calls of matplotlib, networkx and netgraph, which receive
    the graph and the two label dicts. *)
Variable fill : string -> nat -> string.
Variable draw : DiGraph -> gmap node string -> gmap (node * node) string -> result unit.

(** [wrap_text(text, max_line_length)], lines 30-32. *)
Definition wrap_text (text : string) (max_line_length : nat) : string :=
  let wrapped := fill text max_line_length in
  String.concat nl
    (imap (fun i line => str_mul (str_mul " " (i mod 3)) 2 +:+ line)
          (split_on "010"%char wrapped)).

(** [wrap_text(x)] with the default width, for a value that need not be
    a str: [textwrap] starts by calling [expandtabs] on it. *)
Definition wrap_value (v : json) : result string :=
  match v with
  | JStr s => Ok (wrap_text s 25)
  | _ => Err AttributeError
  end.

Definition wrap_node (n : node) : result string :=
  match n with
  | NStr s => Ok (wrap_text s 25)
  | _ => Err AttributeError
  end.

(** A dict comprehension [{k: f(k, v) for k, v in d.items()}] whose
    expression may raise. *)
Definition comprehension {K : Type} `{Countable K} {V : Type}
    (f : K -> V -> result string) (d : gmap K V) : result (gmap K string) :=
  for_each (fun acc kv => label ← f (fst kv) (snd kv); Ok (<[fst kv := label]> acc))
           (map_to_list d) ∅.

(** Line 271. *)
Definition node_labels (G : DiGraph) : result (gmap node string) :=
  comprehension (fun n _ => wrap_node n) (_node G).

(** [nx.get_edge_attributes(G, name)]: the attribute of every edge that
    has it, keyed by the edge. *)
Definition get_edge_attributes (G : DiGraph) (name : string)
  : gmap (node * node) json :=
  map_fold (fun u nbrs acc =>
              map_fold (fun v d acc =>
                          match d !! name with
                          | Some x => <[(u, v) := x]> acc
                          | None => acc
                          end) acc nbrs)
           ∅ (_adj G).

(** Line 274. *)
Definition edge_labels (G : DiGraph) : result (gmap (node * node) string) :=
  comprehension (fun _ label => wrap_value label)
                (get_edge_attributes G "relationship").

(** Lines 270-346: the labels are made, then everything is drawn. *)
Definition show (G : DiGraph) : result unit :=
  nodes ← node_labels G;
  edges ← edge_labels G;
  draw G nodes edges.

End Labels.

(** A stand-in for [textwrap.fill] that leaves short text alone, and
    one that always answers with the same two lines. *)
Definition no_fill (text : string) (width : nat) : string := text.
Definition two_line_fill (text : string) (width : nat) : string :=
  "accused of failure" +:+ nl +:+ "to prosecute".
Definition no_draw (G : DiGraph) (nodes : gmap node string)
    (edges : gmap (node * node) string) : result unit := Ok tt.

(** ** Example inputs *)

(** Two declared entities, two relationships on one ordered pair and
    one relationship to a name that is not declared. *)
Definition rel_accused : Relationship :=
  mkRelationship "Cradock Four" "Ramaphosa" "criticizes"
                 "accused of failure to prosecute".
Definition rel_sue : Relationship :=
  mkRelationship "Cradock Four" "Ramaphosa" "opposes" "sue for damages".
Definition rel_npa : Relationship :=
  mkRelationship "Cradock Four" "NPA" "criticizes" "sued in 2021".

Definition example_document : ExtractionDocument :=
  mkDocument
    [mkEntity "Ramaphosa" "person" "politician" "President of South Africa";
     mkEntity "Cradock Four" "event" EmptyString "Activists murdered in 1985"]
    [rel_accused; rel_sue; rel_npa]
    [mkContextItem "Historical context" "Apartheid-era offences"].

(** A renderer that draws nothing and an endpoint that is down. *)
Definition no_render (G : DiGraph) : result unit := Ok tt.
Definition no_endpoint (req : request) : result response := Err ConnectionError.

Definition empty_document : ExtractionDocument := mkDocument [] [] [].

(** Text written with apostrophes where JSON has double quotes. *)
Fixpoint quoted (s : string) : string :=
  match s with
  | EmptyString => EmptyString
  | String c rest =>
      String (if bool_decide (c = "'"%char) then "034"%char else c) (quoted rest)
  end.

(** The document of the scenario in the specification, as text. *)
Definition scenario_text : string :=
  quoted ("{'entities':[{'name':'Ramaphosa','type':'person','subtype':'poli"
          +:+ "tician','description':'President'},{'name':'Cradock Four','type'"
          +:+ ":'event','subtype':'','description':'Activists'}],'relationships"
          +:+ "':[{'source':'Cradock Four','target':'Ramaphosa','type':'critici"
          +:+ "zes','description':'accused of failure to prosecute'}],'context'"
          +:+ ":[]}").

(** The same text arriving in three fragments and a final record. *)
Definition scenario_fragment1 : string :=
  quoted ("{'entities':[{'name':'Ramaphosa','type':'person','subtype':'poli"
          +:+ "tician','description':'President'},{'name':'Cradock Four','type'"
          +:+ ":'event','subtype':'','description':'Activists'}],").

Definition scenario_fragment2 : string :=
  quoted ("'relationships':[{'source':'Cradock Four','target':'Ramaphosa','"
          +:+ "type':'criticizes','description':'accused of failure to prosecut"
          +:+ "e'}],").

Definition scenario_fragment3 : string :=
  quoted ("'context':[]}").

Definition scenario_line1 : string :=
  quoted ("{'message':{'role':'assistant','content':'{\'entities\':[{\'name"
          +:+ "\':\'Ramaphosa\',\'type\':\'person\',\'subtype\':\'politician\',"
          +:+ "\'description\':\'President\'},{\'name\':\'Cradock Four\',\'type"
          +:+ "\':\'event\',\'subtype\':\'\',\'description\':\'Activists\'}],'}"
          +:+ ",'done':false}").

Definition scenario_line2 : string :=
  quoted ("{'message':{'role':'assistant','content':'\'relationships\':[{\'"
          +:+ "source\':\'Cradock Four\',\'target\':\'Ramaphosa\',\'type\':\'cr"
          +:+ "iticizes\',\'description\':\'accused of failure to prosecute\'}]"
          +:+ ",'},'done':false}").

Definition scenario_line3 : string :=
  quoted ("{'message':{'role':'assistant','content':'\'context\':[]}'},'don"
          +:+ "e':false}").

Definition final_line : string :=
  quoted ("{'message':{'role':'assistant','content':''},'done':true,'eval_c"
          +:+ "ount':42}").

(** A stream that stops in the middle of the document. *)
Definition truncated_line : string :=
  quoted ("{'message':{'role':'assistant','content':'{\'entities\': ['},'do"
          +:+ "ne':false}").


Definition scenario_document : ExtractionDocument :=
  mkDocument
    [mkEntity "Ramaphosa" "person" "politician" "President";
     mkEntity "Cradock Four" "event" EmptyString "Activists"]
    [mkRelationship "Cradock Four" "Ramaphosa" "criticizes"
                    "accused of failure to prosecute"]
    [].

(** Endpoints that answer every request with a fixed stream. *)
Definition scenario_endpoint (req : request) : result response :=
  Ok (mkResponse 200 [scenario_line1; scenario_line2; EmptyString;
                      scenario_line3; final_line]).

Definition truncated_endpoint (req : request) : result response :=
  Ok (mkResponse 200 [truncated_line; final_line]).

(** An endpoint that answers with one whole response. *)
Definition whole_response : response := mkResponse 200 [scenario_text].
Definition whole_endpoint (req : request) : result response := Ok whole_response.

Definition empty_world : world := mkWorld ∅ ∅ [].

(** A world in which a caller holds a two-message conversation: the
    list at 3, its messages at 1 and 2. *)
Definition caller_world : world :=
  mkWorld (<[3%positive := OList [1%positive; 2%positive]]>
            (<[2%positive := ODict [("role", JStr "user"); ("content", JStr "Some article")]]>
              (<[1%positive := ODict [("role", JStr "system"); ("content", JStr "placeholder")]]> ∅)))
          ∅ [].

(** Data that is JSON but follows no schema: a number and a boolean
    as names, a null type, a number as description. *)
Definition odd_graph_data : json :=
  JObj [("entities", JArr [JObj [("name", JInt 1); ("type", JNull)]]);
        ("relationships",
         JArr [JObj [("source", JBool true); ("target", JStr "x");
                     ("description", JInt 7)]])].

(** A world in which one message dict is in the conversation twice:
    the list at 2 holds the dict at 1 in both places. *)
Definition aliased_world : world :=
  mkWorld (<[2%positive := OList [1%positive; 1%positive]]>
            (<[1%positive := ODict [("role", JStr "user"); ("content", JStr "Some article")]]> ∅))
          ∅ [].

(** A stream whose record with [done] true is not its last record. *)
Definition early_done_lines : list string :=
  [scenario_line1; final_line; scenario_line2].

(** * Properties *)

(** ** The insertion primitives *)

Section Graph.

Implicit Types (G : DiGraph) (n u v : node) (a : attrs).

Lemma wf_lookup G n : wf G -> _adj G !! n = None <-> _node G !! n = None.
Proof.
  intros Hwf. rewrite <- !not_elem_of_dom. by rewrite Hwf.
Qed.

Lemma wf_empty : wf empty_graph.
Proof. unfold wf. simpl. by rewrite !dom_empty_L. Qed.

Lemma wf_add_node G n a : wf G -> wf (add_node G n a).
Proof.
  unfold wf, add_node. intros Hwf.
  destruct (_adj G !! n) eqn:Hn; simpl.
  - rewrite dom_insert_L, <- Hwf.
    apply (elem_of_dom_2 (D:=gset node)) in Hn. set_solver.
  - rewrite !dom_insert_L. by rewrite Hwf.
Qed.

Lemma wf_ensure_node G n : wf G -> wf (ensure_node G n).
Proof.
  unfold wf, ensure_node. intros Hwf.
  destruct (_adj G !! n); simpl; [done|].
  rewrite !dom_insert_L. by rewrite Hwf.
Qed.

Lemma adj_ensure_node G n :
  dom (_adj (ensure_node G n)) = {[n]} ∪ dom (_adj G).
Proof.
  unfold ensure_node. destruct (_adj G !! n) eqn:Hn; simpl.
  - apply (elem_of_dom_2 (D:=gset node)) in Hn. set_solver.
  - by rewrite dom_insert_L.
Qed.

Lemma wf_add_edge G u v a : wf G -> wf (add_edge G u v a).
Proof.
  intros Hwf.
  pose proof (wf_ensure_node _ v (wf_ensure_node _ u Hwf)) as H2.
  unfold wf, add_edge in *. simpl. rewrite dom_insert_L, <- H2.
  rewrite !adj_ensure_node. set_solver.
Qed.

(** The node set. *)
Lemma nodes_add_node G n a :
  dom (_node (add_node G n a)) = {[n]} ∪ dom (_node G).
Proof.
  unfold add_node. destruct (_adj G !! n); simpl; by rewrite dom_insert_L.
Qed.

Lemma nodes_add_edge G u v a :
  wf G -> dom (_node (add_edge G u v a)) = {[u; v]} ∪ dom (_node G).
Proof.
  intros Hwf.
  pose proof (wf_ensure_node _ v (wf_ensure_node _ u Hwf)) as H2.
  unfold add_edge. simpl. rewrite <- H2, !adj_ensure_node, Hwf. set_solver.
Qed.

(** Node attributes. *)
Lemma node_add_node G n a n' :
  wf G ->
  _node (add_node G n a) !! n' =
    if decide (n = n') then Some (update a (default ∅ (_node G !! n)))
    else _node G !! n'.
Proof.
  intros Hwf. unfold add_node.
  destruct (_adj G !! n) eqn:Hn; simpl.
  - rewrite lookup_insert. by destruct (decide (n = n')).
  - apply (wf_lookup _ _ Hwf) in Hn. rewrite Hn. simpl.
    rewrite lookup_insert. by destruct (decide (n = n')).
Qed.

Lemma node_ensure_node G n n' :
  wf G ->
  _node (ensure_node G n) !! n' =
    match _node G !! n' with
    | Some x => Some x
    | None => if decide (n = n') then Some ∅ else None
    end.
Proof.
  intros Hwf. unfold ensure_node.
  destruct (_adj G !! n) eqn:Hn; simpl.
  - destruct (_node G !! n') eqn:Hn'; [done|].
    destruct (decide (n = n')) as [->|]; [|done].
    apply (wf_lookup _ _ Hwf) in Hn'. congruence.
  - apply (wf_lookup _ _ Hwf) in Hn.
    rewrite lookup_insert. destruct (decide (n = n')) as [->|].
    + by rewrite Hn.
    + by destruct (_node G !! n').
Qed.

Lemma node_add_edge G u v a n' :
  wf G ->
  _node (add_edge G u v a) !! n' =
    match _node G !! n' with
    | Some x => Some x
    | None => if decide (n' = u \/ n' = v) then Some ∅ else None
    end.
Proof.
  intros Hwf. unfold add_edge. simpl.
  rewrite node_ensure_node by by apply wf_ensure_node.
  rewrite node_ensure_node by done.
  destruct (_node G !! n'); [done|].
  destruct (decide (u = n')), (decide (v = n')), (decide (n' = u \/ n' = v));
    try done; naive_solver.
Qed.

(** Edge data. *)
Lemma succ_ensure_node G n n' :
  default ∅ (_adj (ensure_node G n) !! n') = default ∅ (_adj G !! n').
Proof.
  unfold ensure_node. destruct (_adj G !! n) eqn:Hn; simpl; [done|].
  rewrite lookup_insert. destruct (decide (n = n')) as [->|]; [|done].
  by rewrite Hn.
Qed.

Lemma edge_data_succ G u v : edge_data G u v = default ∅ (_adj G !! u) !! v.
Proof.
  unfold edge_data. destruct (_adj G !! u); simpl; [done|].
  by rewrite lookup_empty.
Qed.

Lemma edge_data_add_node G n a u v :
  edge_data (add_node G n a) u v = edge_data G u v.
Proof.
  rewrite !edge_data_succ. unfold add_node.
  destruct (_adj G !! n) eqn:Hn; simpl; [done|].
  rewrite lookup_insert. destruct (decide (n = u)) as [->|]; [|done].
  by rewrite Hn.
Qed.

Lemma edge_data_add_edge G u v a u' v' :
  edge_data (add_edge G u v a) u' v' =
    if decide (u = u' /\ v = v')
    then Some (update a (default ∅ (edge_data G u v)))
    else edge_data G u' v'.
Proof.
  rewrite !edge_data_succ. unfold add_edge. simpl.
  rewrite !succ_ensure_node.
  rewrite lookup_insert. destruct (decide (u = u')) as [->|Hu]; simpl.
  - rewrite lookup_insert. destruct (decide (v = v')) as [->|Hv].
    + rewrite decide_True by done. done.
    + rewrite decide_False by naive_solver. done.
  - rewrite decide_False by naive_solver. by rewrite !succ_ensure_node.
Qed.

(** Counting edges. *)
Lemma out_degrees_insert_fresh adj n (nbrs : gmap node attrs) :
  adj !! n = None -> out_degrees (<[n := nbrs]> adj) = size nbrs + out_degrees adj.
Proof.
  intros Hn. unfold out_degrees. rewrite map_fold_insert_L; [done| |done].
  intros. lia.
Qed.

Lemma out_degrees_lookup adj n (nbrs : gmap node attrs) :
  adj !! n = Some nbrs -> out_degrees adj = size nbrs + out_degrees (delete n adj).
Proof.
  intros Hn. unfold out_degrees.
  rewrite (map_fold_delete_L _ _ n nbrs adj); [done| |done].
  intros. lia.
Qed.

Lemma out_degrees_replace adj n (old new : gmap node attrs) :
  adj !! n = Some old ->
  out_degrees (<[n := new]> adj) + size old = out_degrees adj + size new.
Proof.
  intros Hn. rewrite (out_degrees_lookup adj n old Hn).
  rewrite <- insert_delete_eq.
  rewrite out_degrees_insert_fresh by apply lookup_delete_eq. lia.
Qed.

Lemma number_of_edges_add_node G n a :
  number_of_edges (add_node G n a) = number_of_edges G.
Proof.
  unfold number_of_edges, add_node.
  destruct (_adj G !! n) eqn:Hn; simpl; [done|].
  rewrite out_degrees_insert_fresh by done. by rewrite map_size_empty.
Qed.

Lemma number_of_edges_ensure_node G n :
  number_of_edges (ensure_node G n) = number_of_edges G.
Proof.
  unfold number_of_edges, ensure_node.
  destruct (_adj G !! n) eqn:Hn; simpl; [done|].
  rewrite out_degrees_insert_fresh by done. by rewrite map_size_empty.
Qed.

Lemma ensure_node_lookup G n : is_Some (_adj (ensure_node G n) !! n).
Proof.
  unfold ensure_node. destruct (_adj G !! n) eqn:Hn; simpl; [by rewrite Hn|].
  by rewrite lookup_insert_eq.
Qed.

Lemma ensure_node_mono G n n' :
  is_Some (_adj G !! n') -> is_Some (_adj (ensure_node G n) !! n').
Proof.
  unfold ensure_node. destruct (_adj G !! n) eqn:Hn; simpl; [done|].
  intros H. rewrite lookup_insert. by destruct (decide (n = n')).
Qed.

Lemma number_of_edges_add_edge G u v a :
  number_of_edges (add_edge G u v a) =
    number_of_edges G + (if decide (is_Some (edge_data G u v)) then 0 else 1).
Proof.
  set (G2 := ensure_node (ensure_node G u) v).
  assert (Hu : is_Some (_adj G2 !! u))
    by apply ensure_node_mono, ensure_node_lookup.
  destruct Hu as [succ_u Hu].
  assert (Hn : number_of_edges G2 = number_of_edges G)
    by (unfold G2; by rewrite !number_of_edges_ensure_node).
  assert (Hd : edge_data G u v = succ_u !! v).
  { rewrite edge_data_succ. unfold G2 in Hu.
    rewrite <- (succ_ensure_node G u u), <- (succ_ensure_node _ v u).
    by rewrite Hu. }
  unfold number_of_edges in *.
  unfold add_edge. fold G2. simpl. rewrite Hu. simpl.
  pose proof (out_degrees_replace (_adj G2) u succ_u
                (<[v := update a (default ∅ (succ_u !! v))]> succ_u) Hu) as Hr.
  rewrite map_size_insert in Hr. rewrite Hd.
  destruct (succ_u !! v) eqn:Hv; simpl in *; lia.
Qed.

End Graph.

(** ** The loops on a document *)

Section Build.

Implicit Types (G : DiGraph) (es : list Entity) (rs : list Relationship).

Lemma for_each_fold_left {A B S : Type} (R : A -> B -> Prop)
    (body : S -> A -> result S) (step : S -> B -> S) vs xs s :
  Forall2 R vs xs ->
  (forall s v x, R v x -> body s v = Ok (step s x)) ->
  for_each body vs s = Ok (fold_left step xs s).
Proof.
  intros HF Hbody. revert s.
  induction HF as [|v x vs xs Hvx _ IH]; intros s; simpl; [done|].
  rewrite (Hbody _ _ _ Hvx). simpl. apply IH.
Qed.

Lemma load_build_document v D : is_document v D -> load_build v = Ok (build D).
Proof.
  intros (vs & ws & cs & Hes & Fes & Hrs & Frs & _).
  unfold load_build. rewrite Hes. simpl.
  rewrite (for_each_fold_left is_entity _ add_entity _ _ _ Fes).
  2:{ intros G e x (Hn & Ht & _). unfold has_field in *. by rewrite Hn, Ht. }
  simpl. rewrite Hrs. simpl.
  rewrite (for_each_fold_left is_relationship _ add_relationship _ _ _ Frs).
  2:{ intros G r x (Hs & Ht & _ & Hd). unfold has_field in *.
      by rewrite Hs, Ht, Hd. }
  done.
Qed.

Lemma live_build_load_build v : live_build v = load_build v.
Proof. reflexivity. Qed.

Lemma is_document_json D : is_document (document_json D) D.
Proof.
  exists (map entity_json (entities D)), (map relationship_json (relationships D)),
         (map context_json (context D)).
  repeat split; try done.
  - induction (entities D); constructor; [by repeat split|done].
  - induction (relationships D); constructor; [by repeat split|done].
  - induction (context D); constructor; [by repeat split|done].
Qed.

(** Well-formedness and the node set. *)
Lemma wf_entities es G : wf G -> wf (fold_left add_entity es G).
Proof.
  revert G. induction es as [|e es IH]; intros G HG; simpl; [done|].
  apply IH, wf_add_node, HG.
Qed.

Lemma wf_relationships rs G : wf G -> wf (fold_left add_relationship rs G).
Proof.
  revert G. induction rs as [|r rs IH]; intros G HG; simpl; [done|].
  apply IH, wf_add_edge, HG.
Qed.

Lemma wf_build_from es rs : wf (build_from es rs).
Proof. apply wf_relationships, wf_entities, wf_empty. Qed.

Lemma nodes_entities es G :
  dom (_node (fold_left add_entity es G)) =
    list_to_set (NStr <$> map e_name es) ∪ dom (_node G).
Proof.
  revert G. induction es as [|e es IH]; intros G; simpl.
  - set_solver.
  - rewrite IH. unfold add_entity at 1. rewrite nodes_add_node. set_solver.
Qed.

Lemma nodes_relationships rs G :
  wf G ->
  dom (_node (fold_left add_relationship rs G)) =
    list_to_set (NStr <$> flat_map (fun r => [r_source r; r_target r]) rs)
      ∪ dom (_node G).
Proof.
  revert G. induction rs as [|r rs IH]; intros G HG; simpl.
  - set_solver.
  - rewrite IH by by apply wf_add_edge.
    unfold add_relationship at 1. rewrite nodes_add_edge by done. set_solver.
Qed.

Lemma nodes_build D :
  dom (_node (build D)) =
    list_to_set (NStr <$> entity_names D) ∪ list_to_set (NStr <$> endpoints D).
Proof.
  unfold build, build_from.
  rewrite nodes_relationships by apply wf_entities, wf_empty.
  rewrite nodes_entities. simpl. rewrite dom_empty_L.
  unfold entity_names, endpoints. set_solver.
Qed.

(** Edges and their labels. *)
Lemma last_description_snoc rs r s t :
  last_description (rs ++ [r]) s t =
    if bool_decide (r_source r = s /\ r_target r = t)
    then Some (r_description r) else last_description rs s t.
Proof. unfold last_description. by rewrite fold_left_app. Qed.

Lemma last_description_pairs rs s t :
  is_Some (last_description rs s t) <->
  (s, t) ∈ map (fun r => (r_source r, r_target r)) rs.
Proof.
  induction rs as [|r rs IH] using rev_ind.
  - simpl. split; [by intros [? ?]|by intros ?%elem_of_nil].
  - rewrite last_description_snoc, map_app, elem_of_app. simpl.
    rewrite list_elem_of_singleton.
    case_bool_decide as Hr.
    + destruct Hr as [<- <-]. split; [by right|by eexists].
    + rewrite IH. split; [by left|]. intros [?|Heq]; [done|].
      inversion Heq; subst. naive_solver.
Qed.

Lemma last_description_later rs s t acc :
  Forall (fun r => (r_source r, r_target r) <> (s, t)) rs ->
  fold_left (fun acc r =>
               if bool_decide (r_source r = s /\ r_target r = t)
               then Some (r_description r) else acc) rs acc = acc.
Proof.
  revert acc. induction rs as [|r rs IH]; intros acc Hrs; simpl; [done|].
  apply Forall_cons in Hrs as [Hr Hrs].
  rewrite bool_decide_false by (intros [<- <-]; by apply Hr).
  by apply IH.
Qed.

Lemma last_description_split rs1 r rs2 :
  Forall (fun r' => (r_source r', r_target r') <> (r_source r, r_target r)) rs2 ->
  last_description (rs1 ++ r :: rs2) (r_source r) (r_target r)
    = Some (r_description r).
Proof.
  intros Hrs. unfold last_description. rewrite fold_left_app. simpl.
  rewrite bool_decide_true by done. by apply last_description_later.
Qed.

Lemma update_relationship_attr d (old : option attrs) :
  (old = None \/ exists d', old = Some (relationship_attr d')) ->
  update (relationship_attr d) (default ∅ old) = relationship_attr d.
Proof.
  unfold update, relationship_attr.
  intros [->|[d' ->]]; simpl.
  - by rewrite (right_id_L ∅ (∪)).
  - apply map_eq. intros k. rewrite lookup_union.
    destruct (decide (k = "relationship")) as [->|].
    + by rewrite !lookup_singleton_eq.
    + by rewrite !lookup_singleton_ne.
Qed.

Lemma edge_data_entities es G u v :
  edge_data (fold_left add_entity es G) u v = edge_data G u v.
Proof.
  revert G. induction es as [|e es IH]; intros G; simpl; [done|].
  rewrite IH. apply edge_data_add_node.
Qed.

Lemma edge_data_empty u v : edge_data empty_graph u v = None.
Proof. unfold edge_data. simpl. by rewrite lookup_empty. Qed.

Lemma build_from_snoc es rs r :
  build_from es (rs ++ [r]) = add_relationship (build_from es rs) r.
Proof. unfold build_from. by rewrite fold_left_app. Qed.

Lemma edge_data_build_from es rs s t :
  edge_data (build_from es rs) (NStr s) (NStr t) =
    relationship_attr <$> last_description rs s t.
Proof.
  revert s t. induction rs as [|r rs IH] using rev_ind; intros s t.
  - unfold build_from. simpl. by rewrite edge_data_entities, edge_data_empty.
  - rewrite build_from_snoc, last_description_snoc.
    unfold add_relationship. rewrite edge_data_add_edge.
    case_bool_decide as Hr.
    + destruct Hr as [<- <-]. rewrite decide_True by done.
      simpl. f_equal. apply update_relationship_attr. rewrite IH.
      destruct (last_description rs (r_source r) (r_target r)); simpl; eauto.
    + rewrite decide_False; [apply IH|]. intros [H1 H2]. apply Hr.
      by inversion H1; inversion H2.
Qed.

Lemma has_edge_build_from es rs s t :
  is_Some (edge_data (build_from es rs) (NStr s) (NStr t)) <->
  (s, t) ∈ map (fun r => (r_source r, r_target r)) rs.
Proof.
  rewrite edge_data_build_from, <- last_description_pairs.
  by rewrite fmap_is_Some.
Qed.

(** Counting distinct elements of a list. *)
Lemma size_list_to_set_snoc `{Countable A} (l : list A) (x : A) :
  size (list_to_set (l ++ [x]) : gset A) =
    size (list_to_set l : gset A) + (if decide (x ∈ l) then 0 else 1).
Proof.
  rewrite list_to_set_app_L, list_to_set_singleton.
  destruct (decide (x ∈ l)) as [Hx|Hx].
  - replace (list_to_set l ∪ {[x]} : gset A) with (list_to_set l : gset A);
      [lia|]. set_solver.
  - rewrite size_union by set_solver. by rewrite size_singleton.
Qed.

Lemma size_list_to_set_le `{Countable A} (l : list A) :
  size (list_to_set l : gset A) <= length l.
Proof.
  induction l as [|x l IH].
  - by rewrite list_to_set_nil, size_empty.
  - rewrite list_to_set_cons, size_union_alt, size_singleton. cbn [length].
    assert (size (list_to_set l ∖ {[x]} : gset A) <= size (list_to_set l : gset A))
      by (apply subseteq_size; set_solver).
    lia.
Qed.

Lemma size_list_to_set_dup `{Countable A} (l : list A) :
  ~ NoDup l -> size (list_to_set l : gset A) < length l.
Proof.
  induction l as [|x l IH]; intros Hd.
  - destruct Hd. constructor.
  - rewrite list_to_set_cons. cbn [length].
    destruct (decide (x ∈ l)) as [Hx|Hx].
    + replace ({[x]} ∪ list_to_set l : gset A) with (list_to_set l : gset A)
        by set_solver.
      pose proof (size_list_to_set_le l). lia.
    + rewrite size_union by set_solver. rewrite size_singleton.
      assert (~ NoDup l) by (intros ?; apply Hd; by constructor).
      specialize (IH ltac:(done)). lia.
Qed.

Lemma number_of_edges_entities es G :
  number_of_edges (fold_left add_entity es G) = number_of_edges G.
Proof.
  revert G. induction es as [|e es IH]; intros G; simpl; [done|].
  rewrite IH. apply number_of_edges_add_node.
Qed.

Lemma number_of_edges_build_from es rs :
  number_of_edges (build_from es rs) =
    size (list_to_set (map (fun r => (r_source r, r_target r)) rs)
            : gset (string * string)).
Proof.
  induction rs as [|r rs IH] using rev_ind.
  - unfold build_from. cbn [fold_left map].
    rewrite number_of_edges_entities, list_to_set_nil, size_empty.
    unfold number_of_edges, out_degrees. simpl. by rewrite map_fold_empty.
  - rewrite build_from_snoc, map_app. cbn [map]. rewrite size_list_to_set_snoc.
    unfold add_relationship. rewrite number_of_edges_add_edge, IH.
    f_equal.
    destruct (decide (is_Some _)) as [He|He];
      rewrite has_edge_build_from in He.
    + by rewrite decide_True.
    + by rewrite decide_False.
Qed.

(** Node attributes. *)
Lemma last_type_snoc es e n :
  last_type (es ++ [e]) n =
    if bool_decide (e_name e = n) then Some (e_type e) else last_type es n.
Proof. unfold last_type. by rewrite fold_left_app. Qed.

Lemma last_type_names es n : is_Some (last_type es n) <-> n ∈ map e_name es.
Proof.
  induction es as [|e es IH] using rev_ind.
  - simpl. split; [by intros [? ?]|by intros ?%elem_of_nil].
  - rewrite last_type_snoc, map_app, elem_of_app. simpl.
    rewrite list_elem_of_singleton.
    case_bool_decide as He.
    + split; [by right|by eexists].
    + rewrite IH. naive_solver.
Qed.

Lemma update_node_type_attr ty (old : option attrs) :
  (old = None \/ exists ty', old = Some (node_type_attr ty')) ->
  update (node_type_attr ty) (default ∅ old) = node_type_attr ty.
Proof.
  unfold update, node_type_attr.
  intros [->|[d' ->]]; simpl.
  - by rewrite (right_id_L ∅ (∪)).
  - apply map_eq. intros k. rewrite lookup_union.
    destruct (decide (k = "node_type")) as [->|].
    + by rewrite !lookup_singleton_eq.
    + by rewrite !lookup_singleton_ne.
Qed.

Lemma node_entities es n :
  _node (fold_left add_entity es empty_graph) !! NStr n =
    node_type_attr <$> last_type es n.
Proof.
  revert n. induction es as [|e es IH] using rev_ind; intros n.
  - simpl. by rewrite lookup_empty.
  - rewrite fold_left_app, last_type_snoc. cbn [fold_left].
    unfold add_entity at 1. rewrite node_add_node by apply wf_entities, wf_empty.
    case_bool_decide as He.
    + subst n. rewrite decide_True by done.
      change (node_type_attr <$> Some (e_type e))
        with (Some (node_type_attr (e_type e))).
      f_equal. apply update_node_type_attr. rewrite IH.
      destruct (last_type es (e_name e)); simpl; eauto.
    + rewrite decide_False; [apply IH|]. intros Heq. by inversion Heq.
Qed.

Lemma node_relationships rs G n :
  wf G ->
  _node (fold_left add_relationship rs G) !! NStr n =
    match _node G !! NStr n with
    | Some x => Some x
    | None =>
        if decide (n ∈ flat_map (fun r => [r_source r; r_target r]) rs)
        then Some ∅ else None
    end.
Proof.
  revert G. induction rs as [|r rs IH]; intros G HG; simpl.
  - by destruct (_node G !! NStr n).
  - rewrite IH by by apply wf_add_edge.
    unfold add_relationship at 1. rewrite node_add_edge by done.
    destruct (_node G !! NStr n); [done|].
    destruct (decide (NStr n = NStr (r_source r) \/ NStr n = NStr (r_target r)))
      as [Hn|Hn].
    + rewrite decide_True; [done|].
      destruct Hn as [Hn|Hn]; inversion Hn; subst; set_solver.
    + destruct (decide (n ∈ flat_map _ rs)) as [Hin|Hin].
      * rewrite decide_True; [done|]. set_solver.
      * rewrite decide_False; [done|].
        rewrite !elem_of_cons. intros [->|[->|?]]; [| |done]; apply Hn; auto.
Qed.

Lemma node_build D n :
  _node (build D) !! NStr n =
    match last_type (entities D) n with
    | Some ty => Some (node_type_attr ty)
    | None => if decide (n ∈ endpoints D) then Some ∅ else None
    end.
Proof.
  unfold build, build_from.
  rewrite node_relationships by apply wf_entities, wf_empty.
  rewrite node_entities. by destruct (last_type (entities D) n).
Qed.

End Build.

(** ** Counting nodes and edges *)

Section Counts.

#[local] Instance NStr_inj : Inj (=) (=) NStr.
Proof. by intros ?? [=]. Qed.

Lemma number_of_nodes_build D :
  number_of_nodes (build D) =
    size (list_to_set (NStr <$> entity_names D) ∪ list_to_set (NStr <$> endpoints D)
            : gset node).
Proof. unfold number_of_nodes. by rewrite <- nodes_build, size_dom. Qed.

Lemma size_declared D :
  unique_names D ->
  size (list_to_set (NStr <$> entity_names D) : gset node) = length (entities D).
Proof.
  intros HD. rewrite size_list_to_set.
  - unfold entity_names. by rewrite length_fmap, length_map.
  - apply NoDup_fmap; [apply _|]. apply HD.
Qed.

Lemma nodes_at_least D :
  unique_names D -> length (entities D) <= number_of_nodes (build D).
Proof.
  intros HD. rewrite number_of_nodes_build, <- (size_declared D HD).
  apply subseteq_size. set_solver.
Qed.

Lemma nodes_more D :
  unique_names D ->
  length (entities D) < number_of_nodes (build D) <->
  exists n, n ∈ endpoints D /\ n ∉ entity_names D.
Proof.
  intros HD. rewrite number_of_nodes_build, <- (size_declared D HD). split.
  - intros Hlt.
    destruct (decide (Exists (fun n => n ∉ entity_names D) (endpoints D)))
      as [He|He].
    + apply Exists_exists in He as (n & Hn & Hnot). by exists n.
    + exfalso. apply not_Exists_Forall in He; [|intros n; apply _].
      rewrite Forall_forall in He.
      assert (Hsub : (list_to_set (NStr <$> endpoints D) : gset node)
                     ⊆ list_to_set (NStr <$> entity_names D)).
      { intros x. rewrite !elem_of_list_to_set, !list_elem_of_fmap.
        intros (n & -> & Hn). exists n. split; [done|].
        specialize (He n Hn). simpl in He. by apply dec_stable in He. }
      replace (list_to_set (NStr <$> entity_names D) ∪ list_to_set (NStr <$> endpoints D)
                 : gset node)
        with (list_to_set (NStr <$> entity_names D) : gset node) in Hlt
        by set_solver.
      lia.
  - intros (n & Hn & Hnot). apply subset_size.
    split; [set_solver|].
    intros Hsub. apply Hnot.
    assert (Hin : NStr n ∈ (list_to_set (NStr <$> entity_names D) : gset node)).
    { apply Hsub. apply elem_of_union_r. rewrite elem_of_list_to_set.
      apply list_elem_of_fmap. eauto. }
    rewrite elem_of_list_to_set in Hin.
    apply list_elem_of_fmap in Hin as (m & Heq & Hm). by inversion Heq; subst.
Qed.

Lemma number_of_edges_build D :
  number_of_edges (build D) = size (list_to_set (pairs D) : gset (string * string)).
Proof. apply number_of_edges_build_from. Qed.

End Counts.

(** ** The two entry points on a decoded document *)

Section Materialise.

Variable json_loads : string -> result json.
Variable endpoint : request -> result response.
Variable render : DiGraph -> result unit.

Lemma load_knowledge_graph_document filename w text v D :
  files w !! filename = Some text ->
  json_loads text = Ok v ->
  is_document v D ->
  load_knowledge_graph json_loads filename w = Ok (build D, v).
Proof.
  intros Hf Hv HD. unfold load_knowledge_graph, read_file. rewrite Hf. simpl.
  rewrite Hv. simpl. by rewrite (load_build_document v D HD).
Qed.

(** The live path, once the conversation has been sent and the stream
    read to its end. *)
Lemma create_knowledge_graph_live c text show_graph w :
  create_knowledge_graph json_loads endpoint render
      (Some (String c text)) None show_graph w =
    let r := fst (fetch json_loads endpoint (String c text) w) in
    let w1 := snd (fetch json_loads endpoint (String c text) w) in
    match outcome r with
    | Err e => (Err e, w1)
    | Ok _ =>
        (graph_data ← json_loads (accumulate (yielded r));
         G ← live_build graph_data;
         show_and_return render show_graph (Some G) (Some graph_data),
         write_file "network_dict.json" (accumulate (yielded r)) w1)
    end.
Proof.
  unfold create_knowledge_graph, fetch. cbn [nonempty default from_option].
  unfold id.
  destruct (new_conversation (String c text) w) as [messages w0].
  unfold message_r1.
  destruct (exhaust json_loads endpoint _ w0) as [r w1]. cbn [fst snd].
  by destruct (outcome r).
Qed.

Lemma create_knowledge_graph_document c text w ret v D :
  outcome (fst (fetch json_loads endpoint (String c text) w)) = Ok ret ->
  json_loads (accumulate (yielded (fst (fetch json_loads endpoint (String c text) w))))
    = Ok v ->
  is_document v D ->
  fst (create_knowledge_graph json_loads endpoint render
         (Some (String c text)) None false w) = Ok (build D, v).
Proof.
  intros Hr Hv HD. rewrite create_knowledge_graph_live. cbv zeta.
  rewrite Hr. cbn [fst]. rewrite Hv. simpl.
  rewrite live_build_load_build, (load_build_document v D HD). done.
Qed.

End Materialise.

(** ** Claims on graph materialisation *)

(** Decides [is_document] on closed terms by evaluating the lookups. *)
Ltac solve_is_document :=
  eexists _, _, _;
  split; [reflexivity|]; split; [repeat constructor|];
  split; [reflexivity|]; split; [repeat constructor|];
  split; [reflexivity|repeat constructor].

(** Decides a closed decidable proposition by evaluation. *)
Ltac by_evaluation := apply (bool_decide_unpack _); vm_compute; exact I.

(** C1.  For every valid document (entity names unique, as the data
    model asks), both pairs of loops build without error a graph that
    has at least as many nodes as the document has entities, and more
    exactly when some relationship endpoint is not a declared name; it
    has as many edges as relationships when the ordered (source,
    target) pairs are distinct, and fewer when some pair repeats.  A
    document with no entity and no relationship gives zero nodes and
    zero edges. *)
Theorem build_node_and_edge_counts (v : json) (D : ExtractionDocument) :
  is_document v D -> unique_names D ->
  exists G,
    load_build v = Ok G /\ live_build v = Ok G /\
    length (entities D) <= number_of_nodes G /\
    (length (entities D) < number_of_nodes G <->
       exists n, n ∈ endpoints D /\ n ∉ entity_names D) /\
    (NoDup (pairs D) -> number_of_edges G = length (relationships D)) /\
    (~ NoDup (pairs D) -> number_of_edges G < length (relationships D)) /\
    (entities D = [] -> relationships D = [] ->
       number_of_nodes G = 0 /\ number_of_edges G = 0).
Proof.
  intros Hv HD. exists (build D).
  assert (Hlen : length (pairs D) = length (relationships D))
    by (unfold pairs; apply length_map).
  split; [by apply load_build_document|].
  split; [rewrite live_build_load_build; by apply load_build_document|].
  split; [by apply nodes_at_least|].
  split; [by apply nodes_more|].
  split; [intros Hp; by rewrite number_of_edges_build, size_list_to_set|].
  split.
  - intros Hp. rewrite number_of_edges_build, <- Hlen.
    by apply size_list_to_set_dup.
  - intros He Hr. unfold build. by rewrite He, Hr.
Qed.

Lemma build_node_and_edge_counts_witness :
  is_document (document_json example_document) example_document /\
  unique_names example_document /\
  exists G,
    load_build (document_json example_document) = Ok G /\
    live_build (document_json example_document) = Ok G /\
    number_of_nodes G = 3 /\ number_of_edges G = 2.
Proof.
  assert (Hd : is_document (document_json example_document) example_document)
    by solve_is_document.
  assert (Hu : unique_names example_document) by by_evaluation.
  split; [exact Hd|]. split; [exact Hu|].
  destruct (build_node_and_edge_counts _ _ Hd Hu) as (G & HG & HG' & _).
  exists G. split; [exact HG|]. split; [exact HG'|].
  assert (G = build example_document) as ->.
  { rewrite (load_build_document _ _ Hd) in HG. by inversion HG. }
  split; vm_compute; reflexivity.
Defined.

(** Without the uniqueness of names the lower bound is lost: an entity
    declared twice is one node. *)
Remark repeated_name_is_one_node :
  let e := mkEntity "Ramaphosa" "person" "politician" "President" in
  number_of_nodes (build (mkDocument [e; e] [] [])) = 1.
Proof. vm_compute. reflexivity. Qed.

(** C5.  When several relationships of a document have the same
    ordered (source, target) pair, the graph holds one edge for the
    pair, labelled with the description of the last of them: edges are
    counted once per distinct pair.  The document handed back with the
    graph, by [load_knowledge_graph] and by the live path of
    [create_knowledge_graph], is the decoded value itself, with every
    relationship still in it. *)
Theorem duplicate_pair_last_wins
    (json_loads : string -> result json) (endpoint : request -> result response)
    (render : DiGraph -> result unit)
    (v : json) (D : ExtractionDocument) (rs1 rs2 : list Relationship) (r : Relationship) :
  is_document v D ->
  relationships D = (rs1 ++ r :: rs2)%list ->
  Forall (fun r' => (r_source r', r_target r') <> (r_source r, r_target r)) rs2 ->
  exists G,
    load_build v = Ok G /\ live_build v = Ok G /\
    edge_data G (NStr (r_source r)) (NStr (r_target r))
      = Some (relationship_attr (r_description r)) /\
    number_of_edges G = size (list_to_set (pairs D) : gset (string * string)) /\
    (forall filename w text,
        files w !! filename = Some text -> json_loads text = Ok v ->
        load_knowledge_graph json_loads filename w = Ok (G, v)) /\
    (forall c text w ret,
        outcome (fst (fetch json_loads endpoint (String c text) w)) = Ok ret ->
        json_loads (accumulate (yielded (fst (fetch json_loads endpoint (String c text) w))))
          = Ok v ->
        fst (create_knowledge_graph json_loads endpoint render
               (Some (String c text)) None false w) = Ok (G, v)) /\
    exists ws, getitem v "relationships" = Ok (JArr ws) /\
               Forall2 is_relationship ws (relationships D).
Proof.
  intros Hv Hsplit Hlast. exists (build D).
  split; [by apply load_build_document|].
  split; [rewrite live_build_load_build; by apply load_build_document|].
  split.
  { unfold build. rewrite edge_data_build_from, Hsplit.
    by rewrite last_description_split. }
  split; [apply number_of_edges_build|].
  split; [intros; by eapply load_knowledge_graph_document|].
  split; [intros; by eapply create_knowledge_graph_document|].
  destruct Hv as (es & ws & cs & _ & _ & Hws & Fws & _). eauto.
Qed.

Lemma duplicate_pair_last_wins_witness :
  relationships example_document = ([rel_accused] ++ rel_sue :: [rel_npa])%list /\
  exists G,
    load_build (document_json example_document) = Ok G /\
    edge_data G (NStr "Cradock Four") (NStr "Ramaphosa")
      = Some (relationship_attr "sue for damages") /\
    number_of_edges G = 2.
Proof.
  split; [reflexivity|].
  destruct (duplicate_pair_last_wins Decoder.loads no_endpoint no_render
              (document_json example_document) example_document
              [rel_accused] [rel_npa] rel_sue)
    as (G & HG & _ & Hedge & Hcount & _).
  - solve_is_document.
  - reflexivity.
  - repeat constructor. vm_compute. intros Heq. discriminate Heq.
  - exists G. split; [exact HG|]. split; [exact Hedge|].
    rewrite Hcount. vm_compute. reflexivity.
Defined.

(** C6.  A relationship whose source or target is not a declared
    entity still becomes an edge, without any error, and the node made
    for the undeclared name has an empty attribute dict: no type. *)
Theorem undeclared_endpoint_gets_untyped_node
    (v : json) (D : ExtractionDocument) (r : Relationship) :
  is_document v D ->
  r ∈ relationships D ->
  exists G,
    load_build v = Ok G /\ live_build v = Ok G /\
    has_edge G (NStr (r_source r)) (NStr (r_target r)) = true /\
    forall n, n = r_source r \/ n = r_target r ->
              n ∉ entity_names D ->
              has_node G (NStr n) = true /\ _node G !! NStr n = Some ∅.
Proof.
  intros Hv Hr. exists (build D).
  split; [by apply load_build_document|].
  split; [rewrite live_build_load_build; by apply load_build_document|].
  split.
  - unfold has_edge. apply bool_decide_eq_true. unfold build.
    apply has_edge_build_from. apply list_elem_of_fmap. by exists r.
  - intros n Hn Hnot.
    assert (Hnode : _node (build D) !! NStr n = Some ∅).
    { rewrite node_build.
      destruct (last_type (entities D) n) as [ty|] eqn:Hty.
      - exfalso. apply Hnot. apply last_type_names. by rewrite Hty.
      - rewrite decide_True; [done|]. unfold endpoints.
        apply list_elem_of_In, in_flat_map. exists r.
        split; [by apply list_elem_of_In|]. simpl. naive_solver. }
    split; [|done]. unfold has_node. apply bool_decide_eq_true. by rewrite Hnode.
Qed.

Lemma undeclared_endpoint_gets_untyped_node_witness :
  (rel_npa ∈ relationships example_document) /\
  ("NPA" ∉ entity_names example_document) /\
  exists G,
    load_build (document_json example_document) = Ok G /\
    has_edge G (NStr "Cradock Four") (NStr "NPA") = true /\
    _node G !! NStr "NPA" = Some ∅.
Proof.
  assert (Hd : is_document (document_json example_document) example_document)
    by solve_is_document.
  assert (Hin : rel_npa ∈ relationships example_document) by by_evaluation.
  assert (Hnot : "NPA" ∉ entity_names example_document) by by_evaluation.
  split; [exact Hin|]. split; [exact Hnot|].
  destruct (undeclared_endpoint_gets_untyped_node
              (document_json example_document) example_document rel_npa
              Hd Hin)
    as (G & HG & _ & Hedge & Hnode).
  exists G. split; [exact HG|]. split; [exact Hedge|].
  apply (Hnode "NPA"); [by right|exact Hnot].
Defined.

(** ** The extraction client *)

Section Client.

Variable json_loads : string -> result json.
Variable endpoint : request -> result response.

#[local] Opaque system_prompt json_schema.

Lemma dumps_conversation (h : gmap loc object) messages m0 m1 kvs0 kvs1 :
  h !! messages = Some (OList [m0; m1]) ->
  h !! m0 = Some (ODict kvs0) ->
  h !! m1 = Some (ODict kvs1) ->
  dumps_ref (S (size h)) h messages = Ok (JArr [JObj kvs0; JObj kvs1]).
Proof.
  intros Hl H0 H1. cbn [dumps_ref]. rewrite Hl.
  destruct (size h) as [|k] eqn:Hs.
  { apply map_size_empty_inv in Hs. subst h. by rewrite lookup_empty in Hl. }
  cbn [mapM dumps_ref]. rewrite H0, H1. reflexivity.
Qed.

(** What advancing the generator does to a two-message conversation. *)
Lemma message_r1_body_conversation messages stream w m0 m1 kvs0 kvs1 :
  heap w !! messages = Some (OList [m0; m1]) ->
  heap w !! m0 = Some (ODict kvs0) ->
  heap w !! m1 = Some (ODict kvs1) ->
  m0 <> m1 ->
  let kvs0' := dict_set "content" (JStr system_prompt) kvs0 in
  let req := chat_request (JArr [JObj kvs0'; JObj kvs1]) stream in
  let w' := mkWorld (<[m0 := ODict kvs0']> (heap w)) (files w) (sent w ++ [req]) in
  message_r1_body json_loads endpoint messages stream w =
    match endpoint req with
    | Err e => (raising e, w')
    | Ok response =>
        if stream then (stream_loop json_loads (resp_lines response) EmptyString, w')
        else (mkRun [] (Ok (RetResponse response)), w')
    end.
Proof.
  intros Hl H0 H1 Hne kvs0' req w'.
  assert (Hm : messages <> m0) by (intros ->; congruence).
  unfold message_r1_body, set_first_content. rewrite Hl. cbn [lookup list_lookup].
  rewrite H0. unfold dumps_dict, set_heap. cbn [mapM heap files sent snd fst dumps_val].
  rewrite (dumps_conversation _ messages m0 m1 kvs0' kvs1).
  - reflexivity.
  - by rewrite lookup_insert_ne.
  - by rewrite lookup_insert_eq.
  - by rewrite lookup_insert_ne.
Qed.

(** The conversation [create_knowledge_graph] allocates. *)
Lemma new_conversation_heap text w :
  exists m0 m1,
    let messages := fst (new_conversation text w) in
    let w0 := snd (new_conversation text w) in
    heap w0 !! messages = Some (OList [m0; m1]) /\
    heap w0 !! m0 = Some (ODict [("role", JStr "system");
                                 ("content", JStr "You are a Knowledge Graph creator...")]) /\
    heap w0 !! m1 = Some (ODict [("role", JStr "user");
                                 ("content", JStr (user_content text))]) /\
    m0 <> m1 /\ files w0 = files w /\ sent w0 = sent w.
Proof.
  unfold new_conversation. cbn [fst snd].
  set (h := heap w).
  set (m0 := fresh (dom h)).
  set (d0 := ODict [("role", JStr "system"); ("content", JStr _)]).
  set (h1 := <[m0 := d0]> h).
  set (m1 := fresh (dom h1)).
  set (d1 := ODict [("role", JStr "user"); ("content", JStr _)]).
  set (h2 := <[m1 := d1]> h1).
  set (ms := fresh (dom h2)).
  exists m0, m1.
  assert (H10 : m1 <> m0).
  { intros Heq. pose proof (is_fresh (dom h1)) as Hf. fold m1 in Hf.
    apply Hf. rewrite Heq. unfold h1. rewrite dom_insert_L. set_solver. }
  assert (Hs1 : ms <> m1).
  { intros Heq. pose proof (is_fresh (dom h2)) as Hf. fold ms in Hf.
    apply Hf. rewrite Heq. unfold h2. rewrite dom_insert_L. set_solver. }
  assert (Hs0 : ms <> m0).
  { intros Heq. pose proof (is_fresh (dom h2)) as Hf. fold ms in Hf.
    apply Hf. rewrite Heq. unfold h2, h1. rewrite !dom_insert_L. set_solver. }
  cbn [heap files sent set_heap].
  repeat split; try done; unfold h2, h1.
  - by rewrite lookup_insert_eq.
  - rewrite lookup_insert_ne by done. rewrite lookup_insert_ne by done.
    by rewrite lookup_insert_eq.
  - rewrite lookup_insert_ne by done. by rewrite lookup_insert_eq.
Qed.

Lemma fetch_request text w :
  let req := chat_request (conversation_json text) true in
  fst (fetch json_loads endpoint text w) =
    match endpoint req with
    | Err e => raising e
    | Ok response => stream_loop json_loads (resp_lines response) EmptyString
    end /\
  files (snd (fetch json_loads endpoint text w)) = files w /\
  sent (snd (fetch json_loads endpoint text w)) = sent w ++ [req].
Proof.
  destruct (new_conversation_heap text w)
    as (m0 & m1 & Hl & H0 & H1 & Hne & Hfiles & Hsent).
  cbv zeta in *. unfold fetch, message_r1, exhaust.
  destruct (new_conversation text w) as [messages w0]. cbn [fst snd] in *.
  cbn [gen_messages gen_stream].
  rewrite (message_r1_body_conversation messages true w0 m0 m1 _ _ Hl H0 H1 Hne).
  cbn [dict_set]. rewrite decide_False by done. rewrite decide_True by done.
  fold (user_content text). fold (conversation_json text).
  rewrite Hfiles, Hsent.
  by destruct (endpoint (chat_request (conversation_json text) true)).
Qed.

(** The loop over the lines. *)
Lemma stream_loop_nonempty_lines lines acc :
  stream_loop json_loads lines acc = stream_loop json_loads (nonempty_lines lines) acc.
Proof.
  revert acc. induction lines as [|line lines IH]; intros acc; [done|].
  unfold nonempty_lines. rewrite filter_cons. fold (nonempty_lines lines).
  cbn [stream_loop]. destruct (decide (line = EmptyString)) as [->|Hne].
  - rewrite decide_False by (intros H; by apply H). apply IH.
  - rewrite decide_True by done. cbn [stream_loop].
    rewrite decide_False by done.
    destruct (json_loads line) as [rec|]; [|done].
    destruct (get_method rec "done" JNull) as [d|]; [|done].
    destruct (negb (truthy d)).
    + destruct (_ ≫= _) as [[]|]; try done. by rewrite IH.
    + by rewrite IH.
Qed.

Lemma append_empty_r s : s +:+ EmptyString = s.
Proof.
  induction s as [|c s IH]; [done|].
  change (String c (s +:+ EmptyString) = String c s). by rewrite IH.
Qed.

Lemma append_assoc s1 s2 s3 : (s1 +:+ s2) +:+ s3 = s1 +:+ (s2 +:+ s3).
Proof.
  induction s1 as [|c s1 IH]; [done|].
  change (String c ((s1 +:+ s2) +:+ s3) = String c (s1 +:+ (s2 +:+ s3))).
  by rewrite IH.
Qed.

Lemma concat_fragments_app s frags acc :
  (acc +:+ s) +:+ concat_fragments frags = acc +:+ concat_fragments (s :: frags).
Proof. cbn [concat_fragments fold_right]. by rewrite append_assoc. Qed.

Lemma stream_loop_protocol lines chunks frags final acc :
  Forall2 (fun line rec => line <> EmptyString /\ json_loads line = Ok rec)
          lines (chunks ++ [final]) ->
  Forall2 chunk_record chunks frags ->
  terminal_record final ->
  stream_loop json_loads lines acc =
    mkRun ((JStr <$> frags) ++ [final]) (Ok (RetStr (acc +:+ concat_fragments frags))).
Proof.
  intros Hlines Hchunks (d & Hd & Ht). revert lines acc Hlines.
  induction Hchunks as [|rec s chunks frags (d' & Hd' & Hf & Hc) _ IH];
    intros lines acc Hlines.
  - apply Forall2_cons_inv_r in Hlines as (line & rest & [Hne Hl] & Hrest & ->).
    apply Forall2_nil_inv_r in Hrest as ->.
    cbn [stream_loop]. rewrite decide_False by done. rewrite Hl, Hd, Ht.
    cbn [negb]. unfold yielding. cbn [yielded outcome app fmap list_fmap].
    cbn [concat_fragments fold_right]. by rewrite append_empty_r.
  - rewrite <- app_comm_cons in Hlines.
    apply Forall2_cons_inv_r in Hlines as (line & rest & [Hne Hl] & Hrest & ->).
    cbn [stream_loop]. rewrite decide_False by done. rewrite Hl, Hd', Hf.
    cbn [negb]. rewrite Hc. rewrite (IH rest _ Hrest).
    unfold yielding. cbn [yielded outcome]. by rewrite concat_fragments_app.
Qed.

(** The caller's loop. *)
Lemma accumulate_from items acc :
  fold_left (fun response_full chunk =>
               match chunk with
               | JStr s => response_full +:+ s
               | _ => response_full
               end) items acc
  = acc +:+ accumulate items.
Proof.
  unfold accumulate. revert acc.
  induction items as [|it items IH]; intros acc; cbn [fold_left].
  - by rewrite append_empty_r.
  - rewrite IH. rewrite (IH (match it with JStr s => _ | _ => _ end)).
    destruct it; try done. cbn [String.append]. by rewrite append_assoc.
Qed.

Lemma accumulate_cons_str s items : accumulate (JStr s :: items) = s +:+ accumulate items.
Proof. unfold accumulate at 1. cbn [fold_left]. by rewrite accumulate_from. Qed.

Lemma accumulate_protocol frags final :
  terminal_record final ->
  accumulate ((JStr <$> frags) ++ [final]) = concat_fragments frags.
Proof.
  intros (d & Hd & _). induction frags as [|s frags IH].
  - destruct final; try done.
  - rewrite fmap_cons, <- app_comm_cons, accumulate_cons_str, IH. done.
Qed.

(** Whatever the endpoint sends, an item is a text fragment or a
    record whose [done] is true, and the text the generator returns is
    the text the caller has put together. *)
Lemma stream_loop_items lines acc :
  Forall (fun item => (exists s, item = JStr s) \/ terminal_record item)
         (yielded (stream_loop json_loads lines acc)) /\
  forall full, outcome (stream_loop json_loads lines acc) = Ok (RetStr full) ->
               full = acc +:+ accumulate (yielded (stream_loop json_loads lines acc)).
Proof.
  revert acc. induction lines as [|line lines IH]; intros acc; cbn [stream_loop].
  - split; [constructor|]. intros full [= <-]. by rewrite append_empty_r.
  - destruct (decide (line = EmptyString)); [apply IH|].
    destruct (json_loads line) as [rec|]; [|by split; [constructor|]].
    destruct (get_method rec "done" JNull) as [d|] eqn:Hd; [|by split; [constructor|]].
    destruct (truthy d) eqn:Ht; cbn [negb].
    + destruct (IH acc) as [Hitems Hfull]. split.
      * constructor; [right; by exists d|done].
      * intros full Hout. cbn [yielding yielded outcome] in *.
        rewrite (Hfull full Hout). f_equal.
        destruct rec; try done.
    + destruct (_ ≫= _) as [[]|]; try (by split; [constructor|]).
      destruct (IH (acc +:+ s)) as [Hitems Hfull]. split.
      * constructor; [left; by eexists|done].
      * intros full Hout. cbn [yielding yielded outcome] in *.
        rewrite (Hfull full Hout), accumulate_cons_str.
        by rewrite append_assoc.
Qed.

End Client.

#[local] Transparent system_prompt json_schema.

(** ** Claims on persistence and loading *)

(** C2.  When the text decodes to a document, writing it to a path
    and loading that path gives the very graph (same nodes with the
    same attributes, same edges with the same labels) that the loops of
    the live path build from the decoded text; and the snapshot that
    [create_knowledge_graph] leaves behind loads back to the graph and
    document it returned. *)
Theorem load_after_persist_roundtrip
    (json_loads : string -> result json) (endpoint : request -> result response)
    (render : DiGraph -> result unit)
    (path rawText : string) (w : world) (v : json) (D : ExtractionDocument) :
  json_loads rawText = Ok v ->
  is_document v D ->
  exists G,
    (json_loads rawText ≫= live_build) = Ok G /\
    load_knowledge_graph json_loads path (write_file path rawText w) = Ok (G, v) /\
    forall c text w0 ret,
      outcome (fst (fetch json_loads endpoint (String c text) w0)) = Ok ret ->
      accumulate (yielded (fst (fetch json_loads endpoint (String c text) w0))) = rawText ->
      let res := create_knowledge_graph json_loads endpoint render
                   (Some (String c text)) None false w0 in
      fst res = Ok (G, v) /\
      load_knowledge_graph json_loads "network_dict.json" (snd res) = Ok (G, v).
Proof.
  intros Hv HD. exists (build D).
  split.
  { rewrite Hv. cbn [mbind result_bind].
    rewrite live_build_load_build. by apply load_build_document. }
  split.
  { apply (load_knowledge_graph_document _ _ _ rawText v D); [|done|done].
    cbn [write_file files]. by rewrite lookup_insert_eq. }
  intros c text w0 ret Hout Hraw res. split.
  - unfold res. eapply create_knowledge_graph_document; [done| |done].
    by rewrite Hraw.
  - apply (load_knowledge_graph_document _ _ _ rawText v D); [|done|done].
    unfold res. rewrite create_knowledge_graph_live. cbv zeta.
    rewrite Hout, Hraw. cbn [snd write_file files].
    by rewrite lookup_insert_eq.
Qed.

Lemma load_after_persist_roundtrip_witness :
  Decoder.loads scenario_text = Ok (document_json scenario_document) /\
  exists G,
    (Decoder.loads scenario_text ≫= live_build) = Ok G /\
    load_knowledge_graph Decoder.loads "snapshot.json"
      (write_file "snapshot.json" scenario_text empty_world)
      = Ok (G, document_json scenario_document) /\
    number_of_nodes G = 2 /\ number_of_edges G = 1 /\
    edge_data G (NStr "Cradock Four") (NStr "Ramaphosa")
      = Some (relationship_attr "accused of failure to prosecute").
Proof.
  assert (Hv : Decoder.loads scenario_text = Ok (document_json scenario_document))
    by (vm_compute; reflexivity).
  assert (Hd : is_document (document_json scenario_document) scenario_document)
    by solve_is_document.
  split; [exact Hv|].
  destruct (load_after_persist_roundtrip Decoder.loads scenario_endpoint no_render
              "snapshot.json" scenario_text empty_world
              (document_json scenario_document) scenario_document Hv Hd)
    as (G & Hbuild & Hload & _).
  exists G. split; [exact Hbuild|]. split; [exact Hload|].
  assert (G = build scenario_document) as ->.
  { rewrite Hv in Hbuild. cbn [mbind result_bind] in Hbuild.
    rewrite live_build_load_build in Hbuild.
    rewrite (load_build_document _ _ Hd) in Hbuild.
    by inversion Hbuild. }
  repeat split; vm_compute; reflexivity.
Defined.

(** C7.  On the live path, once the stream has ended, the text put
    together from it is in the snapshot file whatever its decoding
    gives; when it is not JSON, the call fails with the decoder's
    error only after the write, with the malformed text on disk, and a
    later load of the snapshot fails the same way. *)
Theorem malformed_text_is_persisted_before_parsing
    (json_loads : string -> result json) (endpoint : request -> result response)
    (render : DiGraph -> result unit)
    (c : ascii) (text : string) (show_graph : bool) (w : world) (ret : retval) :
  outcome (fst (fetch json_loads endpoint (String c text) w)) = Ok ret ->
  let raw := accumulate (yielded (fst (fetch json_loads endpoint (String c text) w))) in
  let res := create_knowledge_graph json_loads endpoint render
               (Some (String c text)) None show_graph w in
  files (snd res) !! "network_dict.json" = Some raw /\
  (json_loads raw = Err JSONDecodeError ->
     fst res = Err JSONDecodeError /\
     load_knowledge_graph json_loads "network_dict.json" (snd res)
       = Err JSONDecodeError).
Proof.
  intros Hout raw res.
  assert (Hres : res =
            (graph_data ← json_loads raw;
             G ← live_build graph_data;
             show_and_return render show_graph (Some G) (Some graph_data),
             write_file "network_dict.json" raw
               (snd (fetch json_loads endpoint (String c text) w)))).
  { unfold res. rewrite create_knowledge_graph_live. cbv zeta. by rewrite Hout. }
  rewrite Hres. cbn [fst snd write_file files].
  split; [by rewrite lookup_insert_eq|].
  intros Hbad. rewrite Hbad. split; [done|].
  unfold load_knowledge_graph, read_file, write_file. cbn [files].
  rewrite lookup_insert_eq. cbn [mbind result_bind]. by rewrite Hbad.
Qed.

Lemma malformed_text_is_persisted_before_parsing_witness :
  let raw := quoted "{'entities': [" in
  let res := create_knowledge_graph Decoder.loads truncated_endpoint no_render
               (Some "Some article") None true empty_world in
  Decoder.loads raw = Err JSONDecodeError /\
  files (snd res) !! "network_dict.json" = Some raw /\
  fst res = Err JSONDecodeError.
Proof.
  intros raw res.
  assert (Hout : outcome (fst (fetch Decoder.loads truncated_endpoint
                                 "Some article" empty_world))
                 = Ok (RetStr raw)) by (vm_compute; reflexivity).
  assert (Hraw : accumulate (yielded (fst (fetch Decoder.loads truncated_endpoint
                                             "Some article" empty_world))) = raw)
    by (vm_compute; reflexivity).
  assert (Hbad : Decoder.loads raw = Err JSONDecodeError)
    by (vm_compute; reflexivity).
  destruct (malformed_text_is_persisted_before_parsing
              Decoder.loads truncated_endpoint no_render
              "S"%char "ome article" true empty_world (RetStr raw) Hout)
    as [Hfile Hfail].
  rewrite Hraw in Hfile, Hfail.
  split; [exact Hbad|]. split; [exact Hfile|].
  exact (proj1 (Hfail Hbad)).
Defined.

(** C8, as the code has it.  Loading fails with [FileNotFoundError]
    (raised by [open]; not a parse error) when the file is absent; with
    the decoder's [JSONDecodeError] when the contents are not JSON;
    with [KeyError] for [entities] when the contents are a JSON object
    without that key; with [KeyError] for [relationships] when the
    object has a list of entities but not that key; and with
    [TypeError] (not a lookup failure) when the contents are JSON but
    not an object. *)
Theorem load_failure_classes
    (json_loads : string -> result json) (filename : string) (w : world) :
  (files w !! filename = None ->
     load_knowledge_graph json_loads filename w = Err (FileNotFoundError filename) /\
     is_parse_error (FileNotFoundError filename) = false) /\
  (forall text,
     files w !! filename = Some text ->
     json_loads text = Err JSONDecodeError ->
     load_knowledge_graph json_loads filename w = Err JSONDecodeError /\
     is_parse_error JSONDecodeError = true) /\
  (forall text kvs,
     files w !! filename = Some text ->
     json_loads text = Ok (JObj kvs) ->
     dict_get "entities" kvs = None ->
     load_knowledge_graph json_loads filename w = Err (KeyError "entities") /\
     is_lookup_error (KeyError "entities") = true) /\
  (forall text kvs vs es,
     files w !! filename = Some text ->
     json_loads text = Ok (JObj kvs) ->
     dict_get "entities" kvs = Some (JArr vs) ->
     Forall2 is_entity vs es ->
     dict_get "relationships" kvs = None ->
     load_knowledge_graph json_loads filename w = Err (KeyError "relationships") /\
     is_lookup_error (KeyError "relationships") = true) /\
  (forall text v,
     files w !! filename = Some text ->
     json_loads text = Ok v ->
     (forall kvs, v <> JObj kvs) ->
     load_knowledge_graph json_loads filename w = Err TypeError /\
     is_lookup_error TypeError = false /\ is_parse_error TypeError = false).
Proof.
  unfold load_knowledge_graph, read_file.
  split; [intros ->; by split|].
  split; [intros text -> Hbad; cbn [mbind result_bind]; by rewrite Hbad|].
  split.
  { intros text kvs -> Hv He. cbn [mbind result_bind]. rewrite Hv.
    assert (Hge : getitem (JObj kvs) "entities" = Err (KeyError "entities"))
      by (unfold getitem; by rewrite He).
    cbn [mbind result_bind]. unfold load_build. by rewrite Hge. }
  split.
  { intros text kvs vs es -> Hv He Fes Hr. cbn [mbind result_bind]. rewrite Hv.
    assert (Hge : getitem (JObj kvs) "entities" = Ok (JArr vs))
      by (unfold getitem; by rewrite He).
    assert (Hgr : getitem (JObj kvs) "relationships"
                  = Err (KeyError "relationships"))
      by (unfold getitem; by rewrite Hr).
    cbn [mbind result_bind]. unfold load_build. rewrite Hge.
    cbn [mbind result_bind py_iter].
    rewrite (for_each_fold_left is_entity _ add_entity _ _ _ Fes).
    2:{ intros G e x (Hn & Ht & _). unfold has_field in *. by rewrite Hn, Ht. }
    cbn [mbind result_bind]. by rewrite Hgr. }
  intros text v -> Hv Hobj. cbn [mbind result_bind]. rewrite Hv.
  cbn [mbind result_bind]. destruct v; try done. by destruct (Hobj kvs).
Qed.

Lemma load_failure_classes_witness :
  load_knowledge_graph Decoder.loads "network_dict.json" empty_world
    = Err (FileNotFoundError "network_dict.json") /\
  load_knowledge_graph Decoder.loads "network_dict.json"
    (write_file "network_dict.json" (quoted "{'entities': [") empty_world)
    = Err JSONDecodeError /\
  load_knowledge_graph Decoder.loads "network_dict.json"
    (write_file "network_dict.json" (quoted "{'context': []}") empty_world)
    = Err (KeyError "entities") /\
  load_knowledge_graph Decoder.loads "network_dict.json"
    (write_file "network_dict.json" (quoted "{'entities': []}") empty_world)
    = Err (KeyError "relationships") /\
  load_knowledge_graph Decoder.loads "network_dict.json"
    (write_file "network_dict.json" "[]" empty_world)
    = Err TypeError.
Proof.
  split.
  { apply (load_failure_classes Decoder.loads "network_dict.json" empty_world).
    reflexivity. }
  split.
  { eapply (load_failure_classes Decoder.loads "network_dict.json").
    - reflexivity.
    - vm_compute. reflexivity. }
  split.
  { eapply (load_failure_classes Decoder.loads "network_dict.json").
    - reflexivity.
    - vm_compute. reflexivity.
    - reflexivity. }
  split.
  { eapply (load_failure_classes Decoder.loads "network_dict.json"
              _  ) with (es := []).
    - reflexivity.
    - vm_compute. reflexivity.
    - reflexivity.
    - constructor.
    - reflexivity. }
  eapply (load_failure_classes Decoder.loads "network_dict.json").
  - reflexivity.
  - vm_compute. reflexivity.
  - intros kvs. discriminate.
Defined.

(** The three places where C8 as written fails: an absent file gives
    an error of the operating system, not a parse error; text that is
    JSON but no object, and an object whose entities are not iterable,
    lack the keys and yet give [TypeError], which is no lookup
    failure. *)
Lemma load_failure_classes_counterexample :
  (load_knowledge_graph Decoder.loads "network_dict.json" empty_world
     = Err (FileNotFoundError "network_dict.json") /\
   is_parse_error (FileNotFoundError "network_dict.json") = false) /\
  (Decoder.loads "[]" = Ok (JArr []) /\
   load_knowledge_graph Decoder.loads "network_dict.json"
     (write_file "network_dict.json" "[]" empty_world) = Err TypeError /\
   is_lookup_error TypeError = false) /\
  (Decoder.loads (quoted "{'entities': 5}") = Ok (JObj [("entities", JInt 5)]) /\
   load_knowledge_graph Decoder.loads "network_dict.json"
     (write_file "network_dict.json" (quoted "{'entities': 5}") empty_world)
     = Err TypeError).
Proof. repeat split; vm_compute; reflexivity. Qed.

(** ** Claims on the schema *)

(** Settles a goal for each member of a closed list. *)
Ltac each_member H :=
  repeat (apply elem_of_cons in H as [->|H]; [reflexivity|]);
  by apply elem_of_nil in H.

(** C9.  The constraint sent as [format] requires the three arrays at
    top level; the four fields of an entity, the four fields of a
    relationship (its type among the seven relationship types) and the
    two fields of a context item.  The entity type enum is an array
    with one element, the list of the seven entity types; the subtype
    enum is the flat list of all subtypes of all types. *)
Theorem json_schema_constraint :
  at_path json_schema ["required"]
    = Some (jstrings ["entities"; "relationships"; "context"]) /\
  at_path json_schema ["properties"; "entities"; "items"; "required"]
    = Some (jstrings ["name"; "type"; "subtype"; "description"]) /\
  at_path json_schema ["properties"; "relationships"; "items"; "required"]
    = Some (jstrings ["source"; "target"; "type"; "description"]) /\
  at_path json_schema ["properties"; "context"; "items"; "required"]
    = Some (jstrings ["aspect"; "description"]) /\
  (forall field, field ∈ ["name"; "description"] ->
     at_path json_schema ["properties"; "entities"; "items"; "properties"; field]
       = Some string_field) /\
  (forall field, field ∈ ["source"; "target"; "description"] ->
     at_path json_schema ["properties"; "relationships"; "items"; "properties"; field]
       = Some string_field) /\
  (forall field, field ∈ ["aspect"; "description"] ->
     at_path json_schema ["properties"; "context"; "items"; "properties"; field]
       = Some string_field) /\
  at_path json_schema
      ["properties"; "relationships"; "items"; "properties"; "type"; "enum"]
    = Some (jstrings RELATIONSHIP_TYPES) /\
  length RELATIONSHIP_TYPES = 7 /\
  at_path json_schema
      ["properties"; "entities"; "items"; "properties"; "type"; "enum"]
    = Some (JArr [jstrings VALID_ENTITY_TYPES]) /\
  length VALID_ENTITY_TYPES = 7 /\
  at_path json_schema
      ["properties"; "entities"; "items"; "properties"; "subtype"; "enum"]
    = Some (jstrings ["politician"; "activist"; "expert";
                      "government"; "NGO"; "corporation";
                      "domestic"; "foreign"; "economic"]) /\
  (forall s, JStr s ∈ map JStr (concat (map snd ENTITY_SUBTYPES)) <->
             exists ty subs, (ty, subs) ∈ ENTITY_SUBTYPES /\ s ∈ subs) /\
  (forall level : list string,
     level ∈ [[]; ["properties"; "entities"; "items"];
              ["properties"; "relationships"; "items"];
              ["properties"; "context"; "items"]] ->
     at_path json_schema (level ++ ["type"]) = Some (JStr "object")) /\
  (forall array, array ∈ ["entities"; "relationships"; "context"] ->
     at_path json_schema ["properties"; array; "type"] = Some (JStr "array")).
Proof.
  repeat split; try reflexivity.
  - intros field Hf. each_member Hf.
  - intros field Hf. each_member Hf.
  - intros field Hf. each_member Hf.
  - intros Hs. apply list_elem_of_In, in_map_iff in Hs as (s' & [= ->] & Hs).
    apply in_concat in Hs as (subs & Hsubs & Hs).
    apply in_map_iff in Hsubs as ([ty subs'] & <- & Hin).
    exists ty, subs'. split; by apply list_elem_of_In.
  - intros (ty & subs & Hin & Hs). apply list_elem_of_In, in_map.
    apply in_concat. exists subs. split; [|by apply list_elem_of_In].
    apply in_map_iff. exists (ty, subs). split; [done|by apply list_elem_of_In].
  - intros level Hl. each_member Hl.
  - intros array Ha. each_member Ha.
Qed.

(** ** Claims on the extraction client *)

Lemma Forall2_nonempty_lines {B : Type} (R : string -> B -> Prop) lines recs :
  Forall2 R (nonempty_lines lines) recs ->
  Forall2 (fun line rec => line <> EmptyString /\ R line rec)
          (nonempty_lines lines) recs.
Proof.
  assert (Hne : Forall (fun line => line <> EmptyString) (nonempty_lines lines)).
  { apply Forall_forall. intros line Hin.
    unfold nonempty_lines in Hin. by apply list_elem_of_filter in Hin as [? _]. }
  revert Hne. generalize (nonempty_lines lines). intros ls Hne HF.
  induction HF as [|l r ls rs Hlr _ IH]; [constructor|].
  apply Forall_cons in Hne as [Hl Hne]. constructor; [done|by apply IH].
Qed.

(** C3.  When the endpoint streams records that each carry a text
    fragment and then the record whose [done] is true, the items the
    generator yields are the fragments in order followed by that final
    record; the caller's buffer is the fragments put end to end, final
    record left out; and that text is what is written to the snapshot
    and what is decoded into the graph. *)
Theorem streamed_fragments_are_concatenated
    (json_loads : string -> result json) (endpoint : request -> result response)
    (render : DiGraph -> result unit)
    (c : ascii) (text : string) (show_graph : bool) (w : world)
    (resp : response) (chunks : list json) (frags : list string) (final : json) :
  endpoint (chat_request (conversation_json (String c text)) true) = Ok resp ->
  Forall2 (fun line rec => json_loads line = Ok rec)
          (nonempty_lines (resp_lines resp)) (chunks ++ [final]) ->
  Forall2 chunk_record chunks frags ->
  terminal_record final ->
  let r := fst (fetch json_loads endpoint (String c text) w) in
  let res := create_knowledge_graph json_loads endpoint render
               (Some (String c text)) None show_graph w in
  yielded r = (JStr <$> frags) ++ [final] /\
  (forall s, final <> JStr s) /\
  outcome r = Ok (RetStr (concat_fragments frags)) /\
  accumulate (yielded r) = concat_fragments frags /\
  files (snd res) !! "network_dict.json" = Some (concat_fragments frags) /\
  fst res =
    (graph_data ← json_loads (concat_fragments frags);
     G ← live_build graph_data;
     show_and_return render show_graph (Some G) (Some graph_data)).
Proof.
  intros Hresp Hlines Hchunks Hfinal r res.
  assert (Hr : r = mkRun ((JStr <$> frags) ++ [final])
                         (Ok (RetStr (concat_fragments frags)))).
  { unfold r. destruct (fetch_request json_loads endpoint (String c text) w)
      as (-> & _ & _).
    rewrite Hresp, stream_loop_nonempty_lines.
    apply (stream_loop_protocol json_loads _ chunks frags final EmptyString);
      [|done|done].
    by apply Forall2_nonempty_lines. }
  assert (Hacc : accumulate (yielded r) = concat_fragments frags).
  { rewrite Hr. cbn [yielded]. by apply accumulate_protocol. }
  split; [by rewrite Hr|].
  split; [intros s ->; by destruct Hfinal as (d & Hd & _)|].
  split; [by rewrite Hr|].
  split; [done|].
  assert (Hout : outcome r = Ok (RetStr (concat_fragments frags)))
    by (by rewrite Hr).
  unfold res. rewrite create_knowledge_graph_live. cbv zeta.
  fold r. rewrite Hacc, Hout. cbn [fst snd].
  split; [|done].
  unfold write_file. cbn [files]. by rewrite lookup_insert_eq.
Qed.

Lemma streamed_fragments_are_concatenated_witness :
  let r := fst (fetch Decoder.loads scenario_endpoint "Some article" empty_world) in
  let res := create_knowledge_graph Decoder.loads scenario_endpoint no_render
               (Some "Some article") None false empty_world in
  concat_fragments [scenario_fragment1; scenario_fragment2; scenario_fragment3]
    = scenario_text /\
  length (yielded r) = 4 /\
  accumulate (yielded r) = scenario_text /\
  files (snd res) !! "network_dict.json" = Some scenario_text /\
  fst res = Ok (build scenario_document, document_json scenario_document).
Proof.
  intros r res.
  assert (Hcat : concat_fragments
                   [scenario_fragment1; scenario_fragment2; scenario_fragment3]
                 = scenario_text) by (vm_compute; reflexivity).
  destruct (streamed_fragments_are_concatenated
              Decoder.loads scenario_endpoint no_render
              "S"%char "ome article" false empty_world
              (mkResponse 200 [scenario_line1; scenario_line2; EmptyString;
                               scenario_line3; final_line])
              [JObj [("message", JObj [("role", JStr "assistant");
                                       ("content", JStr scenario_fragment1)]);
                     ("done", JBool false)];
               JObj [("message", JObj [("role", JStr "assistant");
                                       ("content", JStr scenario_fragment2)]);
                     ("done", JBool false)];
               JObj [("message", JObj [("role", JStr "assistant");
                                       ("content", JStr scenario_fragment3)]);
                     ("done", JBool false)]]
              [scenario_fragment1; scenario_fragment2; scenario_fragment3]
              (JObj [("message", JObj [("role", JStr "assistant");
                                       ("content", JStr EmptyString)]);
                     ("done", JBool true); ("eval_count", JInt 42)]))
    as (Hy & _ & _ & Hacc & Hfile & Hres).
  - reflexivity.
  - repeat constructor; vm_compute; reflexivity.
  - repeat constructor; exists (JBool false); repeat split; reflexivity.
  - exists (JBool true). split; reflexivity.
  - fold r in Hy, Hacc. fold res in Hfile, Hres.
    rewrite Hcat in Hacc, Hfile, Hres.
    split; [exact Hcat|]. split; [by rewrite Hy|].
    split; [exact Hacc|]. split; [exact Hfile|].
    rewrite Hres. vm_compute. reflexivity.
Defined.

Lemma dict_get_set k v kvs : dict_get k (dict_set k v kvs) = Some v.
Proof.
  induction kvs as [|[k' v'] kvs IH]; cbn [dict_set dict_get].
  - by rewrite decide_True.
  - destruct (decide (k' = k)) as [->|Hne]; cbn [dict_get].
    + by rewrite decide_True.
    + by rewrite decide_False.
Qed.

Lemma dict_get_set_ne k k' v kvs :
  k' <> k -> dict_get k' (dict_set k v kvs) = dict_get k' kvs.
Proof.
  intros Hk. induction kvs as [|[k0 v0] kvs IH]; cbn [dict_set dict_get].
  - by rewrite decide_False.
  - destruct (decide (k0 = k)) as [->|Hne]; cbn [dict_get].
    + by rewrite !decide_False.
    + destruct (decide (k0 = k')); [done|apply IH].
Qed.

(** C4.  The call [message_r1(messages, stream=False)] posts nothing
    and does not hand the response to its caller: it returns a
    generator.  Only when that generator is advanced is the one request
    posted; it then yields no item, and the response is what the
    generator returns on stopping. *)
Theorem nonstreaming_call_returns_generator :
  (forall messages w,
     message_r1 messages false w = (mkGenerator messages false, w)) /\
  let call := message_r1 3%positive false caller_world in
  let run := exhaust Decoder.loads whole_endpoint (fst call) (snd call) in
  sent (snd call) = [] /\
  yielded (fst run) = [] /\
  outcome (fst run) = Ok (RetResponse whole_response) /\
  sent (snd run) =
    [chat_request
       (JArr [JObj [("role", JStr "system"); ("content", JStr system_prompt)];
              JObj [("role", JStr "user"); ("content", JStr "Some article")]])
       false].
Proof.
  split; [reflexivity|].
  cbv zeta. unfold message_r1, exhaust. cbn [fst snd gen_messages gen_stream].
  rewrite (message_r1_body_conversation Decoder.loads whole_endpoint
             3%positive false caller_world 1%positive 2%positive
             [("role", JStr "system"); ("content", JStr "placeholder")]
             [("role", JStr "user"); ("content", JStr "Some article")]);
    [|reflexivity|reflexivity|reflexivity|done].
  repeat split; reflexivity.
Qed.

(** C10.  Advancing the generator on a two-message conversation
    overwrites, in the caller's own first message, the content with the
    system instruction, which holds the entity types, the subtypes by
    type and the relationship types; it leaves the second message, the
    list and every other object as they were, and only then posts one
    request, whose messages are the conversation as it now stands and
    whose model, format and options are fixed, the stream flag being
    the argument.  The conversation of [create_knowledge_graph] goes
    out that way, its user message being the fixed instruction and the
    article text. *)
Theorem message_r1_rewrites_system_message
    (json_loads : string -> result json) (endpoint : request -> result response)
    (messages : loc) (stream : bool) (w : world)
    (m0 m1 : loc) (kvs0 kvs1 : list (string * json)) :
  heap w !! messages = Some (OList [m0; m1]) ->
  heap w !! m0 = Some (ODict kvs0) ->
  heap w !! m1 = Some (ODict kvs1) ->
  m0 <> m1 ->
  let call := message_r1 messages stream w in
  let w' := snd (exhaust json_loads endpoint (fst call) (snd call)) in
  let kvs0' := dict_set "content" (JStr system_prompt) kvs0 in
  snd call = w /\
  heap w' !! m0 = Some (ODict kvs0') /\
  dict_get "content" kvs0' = Some (JStr system_prompt) /\
  (forall k, k <> "content" -> dict_get k kvs0' = dict_get k kvs0) /\
  heap w' !! m1 = Some (ODict kvs1) /\
  heap w' !! messages = Some (OList [m0; m1]) /\
  (forall l, l <> m0 -> heap w' !! l = heap w !! l) /\
  files w' = files w /\
  sent w' = sent w ++ [chat_request (JArr [JObj kvs0'; JObj kvs1]) stream] /\
  contains (String.concat ", " VALID_ENTITY_TYPES) system_prompt = true /\
  contains subtypes_info system_prompt = true /\
  contains (repr_list RELATIONSHIP_TYPES) system_prompt = true /\
  forall text w0,
    sent (snd (fetch json_loads endpoint text w0))
      = sent w0 ++ [chat_request (conversation_json text) true].
Proof.
  intros Hl H0 H1 Hne call w' kvs0'.
  assert (Hm : messages <> m0) by (intros ->; congruence).
  assert (Hw' : w' = mkWorld (<[m0 := ODict kvs0']> (heap w)) (files w)
                       (sent w ++ [chat_request (JArr [JObj kvs0'; JObj kvs1]) stream])).
  { unfold w', call, message_r1, exhaust. cbn [fst snd gen_messages gen_stream].
    rewrite (message_r1_body_conversation json_loads endpoint
               messages stream w m0 m1 kvs0 kvs1 Hl H0 H1 Hne).
    cbv zeta. fold kvs0'.
    destruct (endpoint _); [by destruct stream|done]. }
  rewrite Hw'. cbn [heap files sent].
  split; [done|].
  split; [by rewrite lookup_insert_eq|].
  split; [apply dict_get_set|].
  split; [intros k Hk; by apply dict_get_set_ne|].
  split; [by rewrite lookup_insert_ne|].
  split; [by rewrite lookup_insert_ne|].
  split; [intros l Hl'; by rewrite lookup_insert_ne|].
  split; [done|].
  split; [done|].
  split; [vm_compute; reflexivity|].
  split; [vm_compute; reflexivity|].
  split; [vm_compute; reflexivity|].
  intros text w0. apply fetch_request.
Qed.

Lemma message_r1_rewrites_system_message_witness :
  let w' := snd (exhaust Decoder.loads scenario_endpoint
                   (mkGenerator 3%positive true) caller_world) in
  heap w' !! 1%positive
    = Some (ODict [("role", JStr "system"); ("content", JStr system_prompt)]) /\
  heap w' !! 2%positive
    = Some (ODict [("role", JStr "user"); ("content", JStr "Some article")]) /\
  sent w' =
    [chat_request
       (JArr [JObj [("role", JStr "system"); ("content", JStr system_prompt)];
              JObj [("role", JStr "user"); ("content", JStr "Some article")]])
       true].
Proof.
  destruct (message_r1_rewrites_system_message Decoder.loads scenario_endpoint
              3%positive true caller_world 1%positive 2%positive
              [("role", JStr "system"); ("content", JStr "placeholder")]
              [("role", JStr "user"); ("content", JStr "Some article")])
    as (_ & Hsys & _ & _ & Husr & _ & _ & _ & Hsent & _).
  - reflexivity.
  - reflexivity.
  - reflexivity.
  - intros Heq. discriminate Heq.
  - intros w'. split; [exact Hsys|]. split; [exact Husr|]. exact Hsent.
Defined.

(** * Further properties of the code *)

(** ** Entry-point behaviour of [create_knowledge_graph] *)

(** X1.  Called with a non-empty [load_file], whatever the name and
    whatever the article, [create_knowledge_graph] reads the file
    [network_dict.json], posts nothing, writes nothing, and never
    returns a graph: a failed load gives the load's error, a failed
    rendering the renderer's, and otherwise the final [return] reads
    [graph_data], which this branch never assigns. *)
Theorem load_file_branch_never_returns
    (json_loads : string -> result json) (endpoint : request -> result response)
    (render : DiGraph -> result unit)
    (c : ascii) (name : string) (article_text : option string)
    (show_graph : bool) (w : world) :
  let res := create_knowledge_graph json_loads endpoint render
               article_text (Some (String c name)) show_graph w in
  snd res = w /\
  (forall G d, fst res <> Ok (G, d)) /\
  (forall e, load_knowledge_graph json_loads "network_dict.json" w = Err e ->
             fst res = Err e) /\
  (forall G d, load_knowledge_graph json_loads "network_dict.json" w = Ok (G, d) ->
     fst res = match (if show_graph then render G else Ok tt) with
               | Ok _ => Err (UnboundLocalError "graph_data")
               | Err e => Err e
               end).
Proof.
  intros res. unfold res, create_knowledge_graph. cbn [nonempty].
  destruct (load_knowledge_graph json_loads "network_dict.json" w)
    as [[G d]|e] eqn:Hload; cbn [fst snd].
  - assert (Hres : show_and_return render show_graph (Some G) None =
                   match (if show_graph then render G else Ok tt) with
                   | Ok _ => Err (UnboundLocalError "graph_data")
                   | Err e => Err e
                   end).
    { unfold show_and_return. destruct show_graph; cbn [local mbind result_bind].
      - by destruct (render G).
      - done. }
    rewrite Hres. split; [done|]. split.
    + intros G' d'. by destruct (if show_graph then render G else Ok tt).
    + split; [done|]. by intros G' d' [= <- <-].
  - split; [done|]. split; [done|]. split; [by intros e' [= <-]|done].
Qed.

(** X2.  Called with neither an article nor a file name (each absent
    or the empty string), [create_knowledge_graph] raises
    [UnboundLocalError] for [G], with or without rendering, and leaves
    the world as it was. *)
Theorem no_input_is_unbound_graph
    (json_loads : string -> result json) (endpoint : request -> result response)
    (render : DiGraph -> result unit)
    (article_text load_file : option string) (show_graph : bool) (w : world) :
  nonempty article_text = false ->
  nonempty load_file = false ->
  create_knowledge_graph json_loads endpoint render article_text load_file show_graph w
    = (Err (UnboundLocalError "G"), w).
Proof.
  intros Ha Hl. unfold create_knowledge_graph. rewrite Ha, Hl.
  unfold show_and_return. by destruct show_graph.
Qed.

Lemma no_input_is_unbound_graph_witness :
  create_knowledge_graph Decoder.loads scenario_endpoint no_render
    None (Some EmptyString) true empty_world
    = (Err (UnboundLocalError "G"), empty_world).
Proof.
  apply (no_input_is_unbound_graph Decoder.loads scenario_endpoint no_render
           None (Some EmptyString) true empty_world); reflexivity.
Defined.

(** X3.  On the live path, an exception raised while the stream is
    fetched (the endpoint cannot be reached, a line is not JSON, a
    record has the wrong shape) is the result of the call, whatever
    fragments came before it, and no file is written. *)
Theorem failed_fetch_writes_nothing
    (json_loads : string -> result json) (endpoint : request -> result response)
    (render : DiGraph -> result unit)
    (c : ascii) (text : string) (show_graph : bool) (w : world) (e : exn) :
  outcome (fst (fetch json_loads endpoint (String c text) w)) = Err e ->
  let res := create_knowledge_graph json_loads endpoint render
               (Some (String c text)) None show_graph w in
  fst res = Err e /\ files (snd res) = files w.
Proof.
  intros Hout res. unfold res. rewrite create_knowledge_graph_live. cbv zeta.
  rewrite Hout. cbn [fst snd]. split; [done|].
  apply (fetch_request json_loads endpoint (String c text) w).
Qed.

Lemma failed_fetch_writes_nothing_witness :
  let res := create_knowledge_graph Decoder.loads
               (fun _ => Ok (mkResponse 200 [scenario_line1; "not json"; final_line]))
               no_render (Some "Some article") None true empty_world in
  fst res = Err JSONDecodeError /\ files (snd res) = ∅.
Proof.
  apply (failed_fetch_writes_nothing Decoder.loads
           (fun _ => Ok (mkResponse 200 [scenario_line1; "not json"; final_line]))
           no_render "S"%char "ome article" true empty_world JSONDecodeError).
  vm_compute. reflexivity.
Defined.

(** X4.  When the endpoint cannot be reached, the live path has posted
    its one request, raises the transport's error and leaves the files
    alone: nothing is retried. *)
Theorem unreachable_endpoint_is_fatal
    (json_loads : string -> result json) (endpoint : request -> result response)
    (render : DiGraph -> result unit)
    (c : ascii) (text : string) (show_graph : bool) (w : world) (e : exn) :
  endpoint (chat_request (conversation_json (String c text)) true) = Err e ->
  let res := create_knowledge_graph json_loads endpoint render
               (Some (String c text)) None show_graph w in
  fst res = Err e /\
  files (snd res) = files w /\
  sent (snd res) = sent w ++ [chat_request (conversation_json (String c text)) true].
Proof.
  intros He res.
  destruct (fetch_request json_loads endpoint (String c text) w)
    as (Hrun & Hfiles & Hsent).
  cbv zeta in Hrun, Hsent. rewrite He in Hrun.
  unfold res. rewrite create_knowledge_graph_live. cbv zeta.
  rewrite Hrun. cbn [raising outcome fst snd]. done.
Qed.

Lemma unreachable_endpoint_is_fatal_witness :
  let res := create_knowledge_graph Decoder.loads no_endpoint no_render
               (Some "Some article") None true empty_world in
  fst res = Err ConnectionError /\
  files (snd res) = ∅ /\
  sent (snd res) = [chat_request (conversation_json "Some article") true].
Proof.
  apply (unreachable_endpoint_is_fatal Decoder.loads no_endpoint no_render
           "S"%char "ome article" true empty_world ConnectionError).
  reflexivity.
Defined.

(** X5.  Whatever its arguments and whatever happens, a call of
    [create_knowledge_graph] touches no file other than
    [network_dict.json]. *)
Theorem only_the_snapshot_is_written
    (json_loads : string -> result json) (endpoint : request -> result response)
    (render : DiGraph -> result unit)
    (article_text load_file : option string) (show_graph : bool) (w : world)
    (path : string) :
  path <> "network_dict.json" ->
  files (snd (create_knowledge_graph json_loads endpoint render
                article_text load_file show_graph w)) !! path
    = files w !! path.
Proof.
  intros Hpath. unfold create_knowledge_graph.
  destruct (nonempty load_file).
  { by destruct (load_knowledge_graph _ _ _) as [[]|]. }
  destruct (nonempty article_text) eqn:Ha; [|done].
  destruct article_text as [[|c text]|]; try done.
  pose proof (create_knowledge_graph_live json_loads endpoint render
                c text show_graph w) as Hlive.
  unfold create_knowledge_graph in Hlive. cbn [nonempty] in Hlive.
  rewrite Hlive. cbv zeta.
  destruct (fetch_request json_loads endpoint (String c text) w)
    as (_ & Hfiles & _).
  destruct (outcome _); cbn [snd]; [|by rewrite Hfiles].
  unfold write_file. cbn [files]. rewrite lookup_insert_ne by done.
  by rewrite Hfiles.
Qed.

Lemma only_the_snapshot_is_written_witness :
  files (snd (create_knowledge_graph Decoder.loads scenario_endpoint no_render
                (Some "Some article") None false
                (write_file "notes.txt" "keep me" empty_world))) !! "notes.txt"
    = Some "keep me".
Proof.
  rewrite (only_the_snapshot_is_written Decoder.loads scenario_endpoint no_render
             (Some "Some article") None false
             (write_file "notes.txt" "keep me" empty_world) "notes.txt").
  - reflexivity.
  - intros Heq. discriminate Heq.
Defined.

(** X6.  A call of [create_knowledge_graph] posts exactly one request
    on the live path, the conversation for the article in streaming
    mode, and none on the other two branches: there is no second
    attempt. *)
Theorem requests_posted_by_a_call
    (json_loads : string -> result json) (endpoint : request -> result response)
    (render : DiGraph -> result unit)
    (article_text load_file : option string) (show_graph : bool) (w : world) :
  sent (snd (create_knowledge_graph json_loads endpoint render
               article_text load_file show_graph w))
    = if nonempty load_file then sent w
      else if nonempty article_text
           then sent w ++ [chat_request
                             (conversation_json (default EmptyString article_text)) true]
           else sent w.
Proof.
  unfold create_knowledge_graph.
  destruct (nonempty load_file).
  { by destruct (load_knowledge_graph _ _ _) as [[]|]. }
  destruct (nonempty article_text) eqn:Ha; [|done].
  destruct article_text as [[|c text]|]; try done.
  pose proof (create_knowledge_graph_live json_loads endpoint render
                c text show_graph w) as Hlive.
  unfold create_knowledge_graph in Hlive. cbn [nonempty] in Hlive.
  rewrite Hlive. cbv zeta.
  destruct (fetch_request json_loads endpoint (String c text) w)
    as (_ & _ & Hsent).
  cbn [default from_option]. unfold id.
  by destruct (outcome _); cbn [snd]; unfold write_file; cbn [sent].
Qed.

(** X7.  When the graph is built but its rendering fails, the error
    of the renderer is the result of the call; the snapshot has been
    written before, and loading it gives the graph that could not be
    shown. *)
Theorem failed_rendering_keeps_snapshot
    (json_loads : string -> result json) (endpoint : request -> result response)
    (render : DiGraph -> result unit)
    (c : ascii) (text : string) (w : world) (ret : retval)
    (v : json) (D : ExtractionDocument) (e : exn) :
  outcome (fst (fetch json_loads endpoint (String c text) w)) = Ok ret ->
  json_loads (accumulate (yielded (fst (fetch json_loads endpoint (String c text) w))))
    = Ok v ->
  is_document v D ->
  render (build D) = Err e ->
  let res := create_knowledge_graph json_loads endpoint render
               (Some (String c text)) None true w in
  fst res = Err e /\
  load_knowledge_graph json_loads "network_dict.json" (snd res) = Ok (build D, v).
Proof.
  intros Hout Hv HD Hrender res. unfold res.
  rewrite create_knowledge_graph_live. cbv zeta. rewrite Hout. cbn [fst snd].
  split.
  - rewrite Hv. cbn [mbind result_bind].
    rewrite live_build_load_build, (load_build_document v D HD).
    cbn [mbind result_bind]. unfold show_and_return. cbn [local mbind result_bind].
    by rewrite Hrender.
  - eapply load_knowledge_graph_document; [|exact Hv|exact HD].
    unfold write_file. cbn [files]. by rewrite lookup_insert_eq.
Qed.

Lemma failed_rendering_keeps_snapshot_witness :
  let res := create_knowledge_graph Decoder.loads scenario_endpoint
               (fun _ => Err ValueError) (Some "Some article") None true empty_world in
  fst res = Err ValueError /\
  load_knowledge_graph Decoder.loads "network_dict.json" (snd res)
    = Ok (build scenario_document, document_json scenario_document).
Proof.
  apply (failed_rendering_keeps_snapshot Decoder.loads scenario_endpoint
           (fun _ => Err ValueError) "S"%char "ome article" empty_world
           (RetStr scenario_text) (document_json scenario_document)
           scenario_document ValueError).
  - vm_compute. reflexivity.
  - vm_compute. reflexivity.
  - solve_is_document.
  - reflexivity.
Defined.

(** ** The generator of [message_r1] *)

Lemma mapM_dumps_ref (h : gmap loc object) k ls ds :
  Forall2 (fun l kvs => h !! l = Some (ODict kvs)) ls ds ->
  mapM (dumps_ref (S k) h) ls = Ok (JObj <$> ds).
Proof.
  induction 1 as [|l kvs ls ds Hl _ IH]; [done|].
  cbn [mapM dumps_ref]. rewrite Hl. cbn [mbind result_bind].
  cbn [dumps_ref] in IH. by rewrite IH.
Qed.

Lemma Forall2_after_rewrite (h : gmap loc object) m0 kvs0' ls ds :
  Forall2 (fun l kvs => h !! l = Some (ODict kvs)) ls ds ->
  Forall2 (fun l kvs => <[m0 := ODict kvs0']> h !! l = Some (ODict kvs)) ls
          (zip_with (fun l kvs => if decide (l = m0) then kvs0' else kvs) ls ds).
Proof.
  induction 1 as [|l kvs ls ds Hl _ IH]; [constructor|].
  cbn [zip_with]. constructor; [|done].
  destruct (decide (l = m0)) as [->|Hne].
  - by rewrite lookup_insert_eq.
  - by rewrite lookup_insert_ne.
Qed.

(** X8.  For a conversation of any length whose first and other
    messages are dicts, advancing the generator rewrites the content of
    the first message only, and posts the messages in their order as
    they then stand; a message that is the same object as the first is
    sent with the rewritten content too. *)
Theorem message_r1_any_conversation
    (json_loads : string -> result json) (endpoint : request -> result response)
    (messages : loc) (stream : bool) (w : world)
    (m0 : loc) (rest : list loc)
    (kvs0 : list (string * json)) (dicts : list (list (string * json))) :
  heap w !! messages = Some (OList (m0 :: rest)) ->
  Forall2 (fun l kvs => heap w !! l = Some (ODict kvs)) (m0 :: rest) (kvs0 :: dicts) ->
  let w' := snd (exhaust json_loads endpoint (mkGenerator messages stream) w) in
  let kvs0' := dict_set "content" (JStr system_prompt) kvs0 in
  heap w' = <[m0 := ODict kvs0']> (heap w) /\
  files w' = files w /\
  sent w' = sent w ++
    [chat_request
       (JArr (JObj <$> zip_with (fun l kvs => if decide (l = m0) then kvs0' else kvs)
                                (m0 :: rest) (kvs0 :: dicts)))
       stream].
Proof.
  intros Hl Hall w' kvs0'.
  assert (H0 : heap w !! m0 = Some (ODict kvs0)) by by inversion Hall.
  assert (Hm : messages <> m0) by (intros ->; congruence).
  set (h' := <[m0 := ODict kvs0']> (heap w)).
  assert (Hsize : exists k, size h' = S k).
  { destruct (size h') as [|k] eqn:Hs; [|by exists k].
    apply map_size_empty_inv in Hs. unfold h' in Hs.
    by apply insert_non_empty in Hs. }
  destruct Hsize as [k Hk].
  assert (Hdumps : dumps_ref (S (size h')) h' messages
            = Ok (JArr (JObj <$> zip_with
                          (fun l kvs => if decide (l = m0) then kvs0' else kvs)
                          (m0 :: rest) (kvs0 :: dicts)))).
  { cbn [dumps_ref]. unfold h' at 1. rewrite lookup_insert_ne by done.
    rewrite Hl, Hk.
    by rewrite (mapM_dumps_ref h' k _ _ (Forall2_after_rewrite _ m0 kvs0' _ _ Hall)). }
  unfold w', exhaust, message_r1_body, set_first_content.
  cbn [gen_messages gen_stream]. rewrite Hl. cbn [lookup list_lookup].
  rewrite H0. fold kvs0'. fold h'.
  unfold dumps_dict, set_heap. cbn [mapM heap files sent snd fst dumps_val].
  rewrite Hdumps. cbn [mbind result_bind fmap result_fmap mret result_ret].
  fold (chat_request
          (JArr (JObj <$> zip_with
                   (fun l kvs => if decide (l = m0) then kvs0' else kvs)
                   (m0 :: rest) (kvs0 :: dicts))) stream).
  destruct (endpoint _); [by destruct stream|done].
Qed.

Lemma message_r1_any_conversation_witness :
  let w' := snd (exhaust Decoder.loads whole_endpoint
                   (mkGenerator 2%positive false) aliased_world) in
  sent w' =
    [chat_request
       (JArr [JObj [("role", JStr "user"); ("content", JStr system_prompt)];
              JObj [("role", JStr "user"); ("content", JStr system_prompt)]])
       false].
Proof.
  destruct (message_r1_any_conversation Decoder.loads whole_endpoint
              2%positive false aliased_world 1%positive [1%positive]
              [("role", JStr "user"); ("content", JStr "Some article")]
              [[("role", JStr "user"); ("content", JStr "Some article")]])
    as (_ & _ & Hsent).
  - reflexivity.
  - repeat constructor.
  - exact Hsent.
Defined.

(** X9.  On an empty conversation the generator raises [IndexError]
    as soon as it is advanced: no request is posted and nothing is
    changed. *)
Theorem empty_conversation_is_index_error
    (json_loads : string -> result json) (endpoint : request -> result response)
    (messages : loc) (stream : bool) (w : world) :
  heap w !! messages = Some (OList []) ->
  exhaust json_loads endpoint (fst (message_r1 messages stream w))
          (snd (message_r1 messages stream w))
    = (raising IndexError, w).
Proof.
  intros Hl. unfold message_r1, exhaust, message_r1_body, set_first_content.
  cbn [fst snd gen_messages gen_stream]. by rewrite Hl.
Qed.

Lemma empty_conversation_is_index_error_witness :
  let w := mkWorld {[1%positive := OList []]} ∅ [] in
  exhaust Decoder.loads scenario_endpoint (mkGenerator 1%positive true) w
    = (raising IndexError, w).
Proof.
  intros w.
  apply (empty_conversation_is_index_error Decoder.loads scenario_endpoint
           1%positive true w).
  reflexivity.
Defined.

(** ** The loop over the stream *)

Lemma stream_loop_app_ok (json_loads : string -> result json) lines1 lines2 acc s :
  outcome (stream_loop json_loads lines1 acc) = Ok (RetStr s) ->
  stream_loop json_loads (lines1 ++ lines2) acc =
    mkRun (yielded (stream_loop json_loads lines1 acc)
           ++ yielded (stream_loop json_loads lines2 s))
          (outcome (stream_loop json_loads lines2 s)).
Proof.
  revert acc. induction lines1 as [|line lines1 IH]; intros acc.
  - cbn [stream_loop app outcome yielded]. intros [= ->].
    by destruct (stream_loop json_loads lines2 s).
  - rewrite <- app_comm_cons. cbn [stream_loop].
    destruct (decide (line = EmptyString)); [apply IH|].
    destruct (json_loads line) as [rec|]; [|done].
    destruct (get_method rec "done" JNull) as [d|]; [|done].
    destruct (negb (truthy d)).
    + destruct (_ ≫= _) as [[]|]; try done.
      cbn [yielding outcome yielded]. intros Hout. by rewrite (IH _ Hout).
    + cbn [yielding outcome yielded]. intros Hout. by rewrite (IH _ Hout).
Qed.

Lemma stream_loop_app_err (json_loads : string -> result json) lines1 lines2 acc e :
  outcome (stream_loop json_loads lines1 acc) = Err e ->
  stream_loop json_loads (lines1 ++ lines2) acc = stream_loop json_loads lines1 acc.
Proof.
  revert acc. induction lines1 as [|line lines1 IH]; intros acc.
  - done.
  - rewrite <- app_comm_cons. cbn [stream_loop].
    destruct (decide (line = EmptyString)); [apply IH|].
    destruct (json_loads line) as [rec|]; [|done].
    destruct (get_method rec "done" JNull) as [d|]; [|done].
    destruct (negb (truthy d)).
    + destruct (_ ≫= _) as [[]|]; try done.
      cbn [yielding outcome yielded]. intros Hout. by rewrite (IH _ Hout).
    + cbn [yielding outcome yielded]. intros Hout. by rewrite (IH _ Hout).
Qed.

(** X10.  The loop reads the stream to its end: when a first part of
    the lines has been read without error, the rest is read with the
    text so far, whether or not a record with [done] true was among
    them; when a part raises, the lines after it are never read. *)
Theorem stream_is_read_to_its_end_or_first_error
    (json_loads : string -> result json) (lines1 lines2 : list string) (acc : string) :
  (forall s,
     outcome (stream_loop json_loads lines1 acc) = Ok (RetStr s) ->
     yielded (stream_loop json_loads (lines1 ++ lines2) acc) =
       yielded (stream_loop json_loads lines1 acc)
       ++ yielded (stream_loop json_loads lines2 s) /\
     outcome (stream_loop json_loads (lines1 ++ lines2) acc) =
       outcome (stream_loop json_loads lines2 s)) /\
  (forall e,
     outcome (stream_loop json_loads lines1 acc) = Err e ->
     stream_loop json_loads (lines1 ++ lines2) acc = stream_loop json_loads lines1 acc).
Proof.
  split.
  - intros s Hout. by rewrite (stream_loop_app_ok _ _ lines2 _ _ Hout).
  - intros e Hout. by apply (stream_loop_app_err _ _ _ _ e).
Qed.

Lemma stream_is_read_to_its_end_or_first_error_witness :
  outcome (stream_loop Decoder.loads [scenario_line1; final_line] EmptyString)
    = Ok (RetStr scenario_fragment1) /\
  length (yielded (stream_loop Decoder.loads early_done_lines EmptyString)) = 3 /\
  outcome (stream_loop Decoder.loads early_done_lines EmptyString)
    = Ok (RetStr (scenario_fragment1 +:+ scenario_fragment2)).
Proof.
  assert (Hout : outcome (stream_loop Decoder.loads [scenario_line1; final_line]
                            EmptyString)
                 = Ok (RetStr scenario_fragment1)) by (vm_compute; reflexivity).
  destruct (proj1 (stream_is_read_to_its_end_or_first_error Decoder.loads
                     [scenario_line1; final_line] [scenario_line2] EmptyString)
              scenario_fragment1 Hout) as [Hy Ho].
  split; [exact Hout|]. split.
  - change early_done_lines with ([scenario_line1; final_line] ++ [scenario_line2]).
    rewrite Hy. vm_compute. reflexivity.
  - change early_done_lines with ([scenario_line1; final_line] ++ [scenario_line2]).
    rewrite Ho. vm_compute. reflexivity.
Defined.

(** X11.  Blank lines in the stream change nothing: with a blank line
    put anywhere among the lines, the items yielded and the way the
    loop ends are the same. *)
Theorem blank_line_is_skipped
    (json_loads : string -> result json) (lines1 lines2 : list string) (acc : string) :
  stream_loop json_loads (lines1 ++ EmptyString :: lines2) acc
    = stream_loop json_loads (lines1 ++ lines2) acc.
Proof.
  rewrite (stream_loop_nonempty_lines json_loads (lines1 ++ EmptyString :: lines2)).
  rewrite (stream_loop_nonempty_lines json_loads (lines1 ++ lines2)).
  unfold nonempty_lines. rewrite !filter_app, filter_cons.
  by rewrite decide_False by (intros H; by apply H).
Qed.

(** X12.  Whatever conversation and whatever stream, every item the
    generator yields in streaming mode is a [str] or a record whose
    [done] is true, and when it stops without error the text it returns
    is the text its caller has put together from the items: the return
    value carries nothing the loop of the caller does not have. *)
Theorem generator_return_is_callers_buffer
    (json_loads : string -> result json) (endpoint : request -> result response)
    (messages : loc) (w : world) :
  let r := fst (exhaust json_loads endpoint (mkGenerator messages true) w) in
  Forall (fun item => (exists s, item = JStr s) \/ terminal_record item) (yielded r) /\
  forall ret, outcome r = Ok ret -> ret = RetStr (accumulate (yielded r)).
Proof.
  intros r.
  assert (Hr : (exists e, r = raising e) \/
               (exists lines, r = stream_loop json_loads lines EmptyString)).
  { unfold r, exhaust, message_r1_body. cbn [gen_messages gen_stream].
    destruct (set_first_content _ _ _); [|left; by eexists].
    destruct (dumps_dict _ _); [|left; by eexists].
    destruct (endpoint _); [right; by eexists|left; by eexists]. }
  destruct Hr as [[e ->]|[lines ->]].
  - split; [constructor|]. by intros ret.
  - destruct (stream_loop_items json_loads lines EmptyString) as [Hitems Hfull].
    split; [done|]. intros ret Hout.
    assert (Hstr : exists full, ret = RetStr full).
    { clear Hfull Hitems. revert Hout. generalize EmptyString.
      induction lines as [|line lines IH]; intros acc; cbn [stream_loop].
      - intros [= <-]. by eexists.
      - destruct (decide (line = EmptyString)); [apply IH|].
        destruct (json_loads line) as [rec|]; [|done].
        destruct (get_method rec "done" JNull) as [d|]; [|done].
        destruct (negb (truthy d)).
        + destruct (_ ≫= _) as [[]|]; try done. apply IH.
        + apply IH. }
    destruct Hstr as [full ->]. by rewrite (Hfull full Hout).
Qed.

(** ** The graph the loops build, on any data *)

Section Consistency.

Implicit Types (G : DiGraph) (n u v : node) (a : attrs).

Lemma pred_data_pred G v u : pred_data G v u = default ∅ (_pred G !! v) !! u.
Proof.
  unfold pred_data. destruct (_pred G !! v); simpl; [done|].
  by rewrite lookup_empty.
Qed.

Lemma pred_dom_ensure_node G n :
  dom (_pred G) = dom (_adj G) ->
  dom (_pred (ensure_node G n)) = dom (_adj (ensure_node G n)).
Proof.
  intros Hd. unfold ensure_node. destruct (_adj G !! n); simpl; [done|].
  by rewrite !dom_insert_L, Hd.
Qed.

Lemma pred_ensure_node G n n' :
  dom (_pred G) = dom (_adj G) ->
  default ∅ (_pred (ensure_node G n) !! n') = default ∅ (_pred G !! n').
Proof.
  intros Hd. unfold ensure_node. destruct (_adj G !! n) eqn:Hn; simpl; [done|].
  rewrite lookup_insert. destruct (decide (n = n')) as [->|]; [|done].
  apply (not_elem_of_dom (D:=gset node)) in Hn. rewrite <- Hd in Hn.
  apply (not_elem_of_dom (D:=gset node)) in Hn. by rewrite Hn.
Qed.

Lemma pred_data_add_edge G u v a u' v' :
  dom (_pred G) = dom (_adj G) ->
  pred_data (add_edge G u v a) v' u' =
    if decide (u = u' /\ v = v')
    then Some (update a (default ∅ (edge_data G u v)))
    else pred_data G v' u'.
Proof.
  intros Hd. rewrite !pred_data_pred, edge_data_succ. unfold add_edge. simpl.
  rewrite !succ_ensure_node.
  rewrite !pred_ensure_node by (done || by apply pred_dom_ensure_node).
  rewrite lookup_insert. destruct (decide (v = v')) as [->|Hv]; simpl.
  - rewrite lookup_insert. destruct (decide (u = u')) as [->|Hu].
    + by rewrite decide_True.
    + by rewrite decide_False by naive_solver.
  - rewrite decide_False by naive_solver.
    by rewrite !pred_ensure_node by (done || by apply pred_dom_ensure_node).
Qed.

Lemma consistent_empty : consistent empty_graph.
Proof.
  split; [apply wf_empty|]. split; [done|]. split; [done|].
  intros u v [? H]. by rewrite edge_data_empty in H.
Qed.

Lemma consistent_add_node G n a : consistent G -> consistent (add_node G n a).
Proof.
  intros (Hwf & Hd & Hmirror & Hends).
  split; [by apply wf_add_node|]. split; [|split].
  - unfold add_node. destruct (_adj G !! n); simpl; [done|].
    by rewrite !dom_insert_L, Hd.
  - intros u v. rewrite edge_data_add_node, <- Hmirror, !pred_data_pred.
    unfold add_node. destruct (_adj G !! n) eqn:Hn; simpl; [done|].
    rewrite lookup_insert. destruct (decide (n = v)) as [->|]; [|done].
    apply (not_elem_of_dom (D:=gset node)) in Hn. rewrite <- Hd in Hn.
    apply (not_elem_of_dom (D:=gset node)) in Hn. by rewrite Hn.
  - intros u v. rewrite edge_data_add_node. intros He.
    destruct (Hends u v He) as [Hu Hv].
    rewrite <- !(elem_of_dom (D:=gset node)), nodes_add_node.
    apply (elem_of_dom (D:=gset node)) in Hu, Hv. set_solver.
Qed.

Lemma consistent_add_edge G u v a : consistent G -> consistent (add_edge G u v a).
Proof.
  intros (Hwf & Hd & Hmirror & Hends).
  split; [by apply wf_add_edge|]. split; [|split].
  - pose proof (pred_dom_ensure_node _ v (pred_dom_ensure_node _ u Hd)) as H2.
    unfold add_edge. simpl. rewrite !dom_insert_L, H2, !adj_ensure_node. set_solver.
  - intros u' v'. rewrite pred_data_add_edge by done.
    by rewrite edge_data_add_edge, Hmirror.
  - intros u' v'. rewrite edge_data_add_edge.
    rewrite <- !(elem_of_dom (D:=gset node)), nodes_add_edge by done.
    destruct (decide (u = u' /\ v = v')) as [[<- <-]|_]; [set_solver|].
    intros He. destruct (Hends u' v' He) as [Hu Hv].
    apply (elem_of_dom (D:=gset node)) in Hu, Hv. set_solver.
Qed.

Lemma for_each_invariant {A S : Type} (P : S -> Prop)
    (body : S -> A -> result S) xs s s' :
  P s ->
  (forall s x s', P s -> body s x = Ok s' -> P s') ->
  for_each body xs s = Ok s' -> P s'.
Proof.
  intros Hs Hbody. revert s Hs.
  induction xs as [|x xs IH]; intros s Hs; cbn [for_each].
  - by intros [= <-].
  - destruct (body s x) as [s1|] eqn:Hx; [|done]. cbn [mbind result_bind].
    apply IH. by eapply Hbody.
Qed.

Lemma load_build_consistent (graph_data : json) G :
  load_build graph_data = Ok G -> consistent G.
Proof.
  intros Hbuild.
  unfold load_build in Hbuild.
  destruct (getitem graph_data "entities") as [ents|]; [|done].
  cbn [mbind result_bind] in Hbuild.
  destruct (py_iter ents) as [es|]; [|done].
  cbn [mbind result_bind] in Hbuild.
  destruct (for_each _ es empty_graph) as [G1|] eqn:H1; [|done].
  cbn [mbind result_bind] in Hbuild.
  destruct (getitem graph_data "relationships") as [rels|]; [|done].
  cbn [mbind result_bind] in Hbuild.
  destruct (py_iter rels) as [rs|]; [|done].
  cbn [mbind result_bind] in Hbuild.
  assert (HG1 : consistent G1).
  { eapply (for_each_invariant consistent); [apply consistent_empty| |exact H1].
    intros G0 entity G0' HG0 Hbody. cbv beta in Hbody.
    destruct (getitem entity "name") as [name|]; [|done].
    cbn [mbind result_bind] in Hbody.
    destruct (getitem entity "type") as [ty|]; [|done].
    cbn [mbind result_bind] in Hbody.
    destruct (as_node name) as [n|]; [|done].
    injection Hbody as <-. by apply consistent_add_node. }
  eapply (for_each_invariant consistent); [exact HG1| |exact Hbuild].
  intros G0 rel G0' HG0 Hbody. cbv beta in Hbody.
  destruct (getitem rel "source") as [src|]; [|done].
  cbn [mbind result_bind] in Hbody.
  destruct (getitem rel "target") as [tgt|]; [|done].
  cbn [mbind result_bind] in Hbody.
  destruct (getitem rel "description") as [descr|]; [|done].
  cbn [mbind result_bind] in Hbody.
  destruct (as_node src) as [u|]; [|done].
  cbn [mbind result_bind] in Hbody.
  destruct (as_node tgt) as [v|]; [|done].
  injection Hbody as <-. by apply consistent_add_edge.
Qed.

End Consistency.

(** X13.  Whatever data the document holds (names that are numbers,
    booleans, repeated; fields of any type), when the two loops end
    without error the graph is a consistent [DiGraph]: nodes,
    successors and predecessors have the same keys, every edge is in
    the predecessor dict turned round with the same attributes, and
    both ends of every edge are nodes. *)
Theorem built_graph_is_consistent (graph_data : json) (G : DiGraph) :
  load_build graph_data = Ok G ->
  consistent G /\ live_build graph_data = Ok G.
Proof.
  intros Hbuild. split; [by eapply load_build_consistent|].
  by rewrite live_build_load_build.
Qed.

Lemma built_graph_is_consistent_witness :
  exists G, load_build odd_graph_data = Ok G /\
            number_of_nodes G = 2 /\ number_of_edges G = 1 /\ consistent G.
Proof.
  destruct (load_build odd_graph_data) as [G|e] eqn:Hbuild.
  - exists G. split; [reflexivity|].
    pose proof (proj1 (built_graph_is_consistent odd_graph_data G Hbuild)) as HG.
    vm_compute in Hbuild. injection Hbuild as <-.
    split; [vm_compute; reflexivity|]. split; [vm_compute; reflexivity|].
    exact HG.
  - vm_compute in Hbuild. discriminate Hbuild.
Defined.

(** ** The graph of a document, exactly *)

(** X14.  The graph of a document holds the declared names and the
    endpoints of its relationships as nodes and nothing else, and an
    edge for each ordered pair of its relationships and no other: the
    loops invent neither node nor edge, and every node is a string. *)
Theorem graph_holds_exactly_the_document (v : json) (D : ExtractionDocument) :
  is_document v D ->
  exists G,
    load_build v = Ok G /\ live_build v = Ok G /\
    (forall n, has_node G n = true <->
               exists s, n = NStr s /\ (s ∈ entity_names D \/ s ∈ endpoints D)) /\
    (forall n1 n2, has_edge G n1 n2 = true <->
                   exists s t, n1 = NStr s /\ n2 = NStr t /\ (s, t) ∈ pairs D).
Proof.
  intros Hv. exists (build D).
  pose proof (load_build_document v D Hv) as Hbuild.
  split; [done|]. split; [by rewrite live_build_load_build|].
  assert (Hnodes : forall n, has_node (build D) n = true <->
            exists s, n = NStr s /\ (s ∈ entity_names D \/ s ∈ endpoints D)).
  { intros n. unfold has_node. rewrite bool_decide_eq_true.
    rewrite <- (elem_of_dom (D:=gset node)), nodes_build.
    rewrite elem_of_union, !elem_of_list_to_set, !list_elem_of_fmap.
    naive_solver. }
  split; [done|].
  intros n1 n2. split.
  - intros He. unfold has_edge in He. apply bool_decide_eq_true in He.
    destruct (load_build_consistent v (build D) Hbuild) as (_ & _ & _ & Hends).
    destruct (Hends n1 n2 He) as [H1 H2].
    assert (Hn1 : has_node (build D) n1 = true) by by apply bool_decide_eq_true.
    assert (Hn2 : has_node (build D) n2 = true) by by apply bool_decide_eq_true.
    apply Hnodes in Hn1 as (s & -> & _). apply Hnodes in Hn2 as (t & -> & _).
    exists s, t. split; [done|]. split; [done|].
    by apply (has_edge_build_from (entities D) (relationships D)).
  - intros (s & t & -> & -> & Hp). unfold has_edge. apply bool_decide_eq_true.
    by apply (has_edge_build_from (entities D) (relationships D)).
Qed.

Lemma graph_holds_exactly_the_document_witness :
  exists G,
    load_build (document_json example_document) = Ok G /\
    has_node G (NStr "NPA") = true /\
    has_node G (NStr "Pretoria") = false /\
    has_edge G (NStr "Cradock Four") (NStr "NPA") = true /\
    has_edge G (NStr "NPA") (NStr "Cradock Four") = false.
Proof.
  destruct (graph_holds_exactly_the_document
              (document_json example_document) example_document)
    as (G & HG & _ & Hnodes & Hedges).
  - solve_is_document.
  - exists G. split; [exact HG|].
    assert (G = build example_document) as ->.
    { assert (Hd : is_document (document_json example_document) example_document)
        by solve_is_document.
      rewrite (load_build_document _ _ Hd) in HG. by inversion HG. }
    repeat split; vm_compute; reflexivity.
Defined.

Lemma last_type_later es n acc :
  Forall (fun e => e_name e <> n) es ->
  fold_left (fun acc e => if bool_decide (e_name e = n) then Some (e_type e) else acc)
            es acc = acc.
Proof.
  revert acc. induction es as [|e es IH]; intros acc Hes; cbn [fold_left]; [done|].
  apply Forall_cons in Hes as [He Hes].
  rewrite bool_decide_false by done. by apply IH.
Qed.

(** X15.  A node that an entity declares carries the type of the last
    entity of that name, whether or not relationships name it too:
    a later entity of the same name overwrites the type, and adding
    edges changes the attributes of no node. *)
Theorem declared_node_has_last_type
    (v : json) (D : ExtractionDocument) (es1 es2 : list Entity) (e : Entity) :
  is_document v D ->
  entities D = es1 ++ e :: es2 ->
  Forall (fun e' => e_name e' <> e_name e) es2 ->
  exists G,
    load_build v = Ok G /\ live_build v = Ok G /\
    _node G !! NStr (e_name e) = Some {["node_type" := JStr (e_type e)]}.
Proof.
  intros Hv Hsplit Hlast. exists (build D).
  split; [by apply load_build_document|].
  split; [rewrite live_build_load_build; by apply load_build_document|].
  rewrite node_build, Hsplit. unfold last_type. rewrite fold_left_app.
  cbn [fold_left]. rewrite bool_decide_true by done.
  by rewrite last_type_later.
Qed.

Lemma declared_node_has_last_type_witness :
  exists G,
    load_build (document_json example_document) = Ok G /\
    _node G !! NStr "Cradock Four" = Some {["node_type" := JStr "event"]}.
Proof.
  destruct (declared_node_has_last_type
              (document_json example_document) example_document
              [mkEntity "Ramaphosa" "person" "politician" "President of South Africa"]
              []
              (mkEntity "Cradock Four" "event" EmptyString "Activists murdered in 1985"))
    as (G & HG & _ & Hnode).
  - solve_is_document.
  - reflexivity.
  - constructor.
  - exists G. split; [exact HG|exact Hnode].
Defined.

Lemma fold_left_projection {A B S : Type} (p : A -> B) (f : S -> A -> S)
    (g : S -> B -> S) xs s :
  (forall s x, f s x = g s (p x)) ->
  fold_left f xs s = fold_left g (map p xs) s.
Proof.
  intros Hfg. revert s. induction xs as [|x xs IH]; intros s; cbn [fold_left map].
  - done.
  - by rewrite Hfg, IH.
Qed.

(** X16.  The graph depends on the names and types of the entities
    and on the sources, targets and descriptions of the relationships
    only: two documents that agree on these build the same graph,
    whatever their subtypes, entity descriptions, relationship types
    and context items (and whatever other keys the dicts hold). *)
Theorem graph_ignores_the_other_fields
    (v v' : json) (D D' : ExtractionDocument) :
  is_document v D ->
  is_document v' D' ->
  map (fun e => (e_name e, e_type e)) (entities D)
    = map (fun e => (e_name e, e_type e)) (entities D') ->
  map (fun r => (r_source r, r_target r, r_description r)) (relationships D)
    = map (fun r => (r_source r, r_target r, r_description r)) (relationships D') ->
  exists G, load_build v = Ok G /\ load_build v' = Ok G.
Proof.
  intros Hv Hv' Hes Hrs. exists (build D).
  split; [by apply load_build_document|].
  rewrite (load_build_document v' D' Hv'). f_equal.
  unfold build, build_from.
  rewrite (fold_left_projection (fun e => (e_name e, e_type e)) add_entity
             (fun G p => add_node G (NStr p.1) {["node_type" := JStr p.2]})
             (entities D')) by done.
  rewrite (fold_left_projection (fun r => (r_source r, r_target r, r_description r))
             add_relationship
             (fun G p => add_edge G (NStr p.1.1) (NStr p.1.2)
                                  {["relationship" := JStr p.2]})
             (relationships D')) by done.
  rewrite <- Hes, <- Hrs.
  rewrite <- (fold_left_projection (fun e => (e_name e, e_type e)) add_entity) by done.
  by rewrite <- (fold_left_projection
                   (fun r => (r_source r, r_target r, r_description r))
                   add_relationship) by done.
Qed.

Lemma graph_ignores_the_other_fields_witness :
  let D' := mkDocument
              [mkEntity "Ramaphosa" "person" "expert" "Someone";
               mkEntity "Cradock Four" "event" "domestic" "Something"]
              [mkRelationship "Cradock Four" "Ramaphosa" "supports"
                              "accused of failure to prosecute"]
              [mkContextItem "Political dynamics" "Lawsuit"] in
  exists G, load_build (document_json scenario_document) = Ok G /\
            load_build (document_json D') = Ok G.
Proof.
  intros D'.
  apply (graph_ignores_the_other_fields
           (document_json scenario_document) (document_json D')
           scenario_document D').
  - solve_is_document.
  - solve_is_document.
  - reflexivity.
  - reflexivity.
Defined.

(** ** Data that does not follow the schema *)

Lemma for_each_prefix {A B S : Type} (R : A -> B -> Prop)
    (body : S -> A -> result S) (step : S -> B -> S) vs xs rest s :
  Forall2 R vs xs ->
  (forall s v x, R v x -> body s v = Ok (step s x)) ->
  for_each body (vs ++ rest) s = for_each body rest (fold_left step xs s).
Proof.
  intros HF Hbody. revert s.
  induction HF as [|v x vs xs Hvx _ IH]; intros s; [done|].
  rewrite <- app_comm_cons. cbn [for_each fold_left].
  rewrite (Hbody _ _ _ Hvx). cbn [mbind result_bind]. apply IH.
Qed.

Lemma entity_loop_stops (v : json) vs es bad rest e :
  getitem v "entities" = Ok (JArr (vs ++ bad :: rest)) ->
  Forall2 is_entity vs es ->
  (forall G, (name ← getitem bad "name";
              ty ← getitem bad "type";
              n ← as_node name;
              Ok (add_node G n {["node_type" := ty]})) = Err e) ->
  load_build v = Err e.
Proof.
  intros Hents Fes Hbad. unfold load_build. rewrite Hents.
  cbn [mbind result_bind py_iter].
  rewrite (for_each_prefix is_entity _ add_entity vs es (bad :: rest) _ Fes).
  2:{ intros G x y (Hn & Ht & _). unfold has_field in *. by rewrite Hn, Ht. }
  cbn [for_each]. by rewrite Hbad.
Qed.

(** X17.  When an entity of the list lacks [name], or has a name and
    lacks [type], the loops stop there with [KeyError] for that key,
    whatever comes after it in the document: no graph is built from
    the entities before it. *)
Theorem entity_without_field_is_key_error
    (v : json) (vs : list json) (es : list Entity)
    (kvs : list (string * json)) (rest : list json) :
  getitem v "entities" = Ok (JArr (vs ++ JObj kvs :: rest)) ->
  Forall2 is_entity vs es ->
  (dict_get "name" kvs = None ->
     load_build v = Err (KeyError "name") /\ live_build v = Err (KeyError "name")) /\
  (is_Some (dict_get "name" kvs) -> dict_get "type" kvs = None ->
     load_build v = Err (KeyError "type") /\ live_build v = Err (KeyError "type")).
Proof.
  intros Hents Fes. change (live_build v) with (load_build v). split.
  - intros Hn. split; apply (entity_loop_stops v vs es (JObj kvs) rest); try done;
      intros G; unfold getitem; by rewrite Hn.
  - intros [nm Hn] Ht. split; apply (entity_loop_stops v vs es (JObj kvs) rest);
      try done; intros G; unfold getitem; by rewrite Hn, Ht.
Qed.

Lemma entity_without_field_is_key_error_witness :
  load_build
    (JObj [("entities",
            JArr [entity_json (mkEntity "Ramaphosa" "person" "politician" "President");
                  JObj [("name", JStr "NPA")]]);
           ("relationships", JArr [])])
    = Err (KeyError "type").
Proof.
  apply (entity_without_field_is_key_error _
           [entity_json (mkEntity "Ramaphosa" "person" "politician" "President")]
           [mkEntity "Ramaphosa" "person" "politician" "President"]
           [("name", JStr "NPA")] []).
  - reflexivity.
  - repeat constructor.
  - by eexists.
  - reflexivity.
Defined.

(** X18.  A name that is [null] is refused with [ValueError], a name
    that is a list or a dict with [TypeError] (it cannot be hashed);
    either stops the loops at that entity. *)
Theorem entity_name_that_is_no_node
    (v : json) (vs : list json) (es : list Entity)
    (kvs : list (string * json)) (rest : list json) (name : json) :
  getitem v "entities" = Ok (JArr (vs ++ JObj kvs :: rest)) ->
  Forall2 is_entity vs es ->
  dict_get "name" kvs = Some name ->
  is_Some (dict_get "type" kvs) ->
  (name = JNull -> load_build v = Err ValueError) /\
  ((exists items, name = JArr items) \/ (exists fields, name = JObj fields) ->
     load_build v = Err TypeError).
Proof.
  intros Hents Fes Hn [ty Ht]. split.
  - intros ->. apply (entity_loop_stops v vs es (JObj kvs) rest); try done.
    intros G. unfold getitem. by rewrite Hn, Ht.
  - intros Hname. apply (entity_loop_stops v vs es (JObj kvs) rest); try done.
    intros G. unfold getitem. rewrite Hn, Ht.
    by destruct Hname as [[items ->]|[fields ->]].
Qed.

Lemma entity_name_that_is_no_node_witness :
  load_build
    (JObj [("entities", JArr [JObj [("name", JNull); ("type", JStr "person")]]);
           ("relationships", JArr [])])
    = Err ValueError /\
  load_build
    (JObj [("entities", JArr [JObj [("name", JArr [JStr "a"; JStr "b"]);
                                    ("type", JStr "person")]]);
           ("relationships", JArr [])])
    = Err TypeError.
Proof.
  split.
  - apply (entity_name_that_is_no_node _ [] [] [("name", JNull); ("type", JStr "person")]
             [] JNull); try reflexivity; [constructor|by eexists].
  - apply (entity_name_that_is_no_node _ [] []
             [("name", JArr [JStr "a"; JStr "b"]); ("type", JStr "person")]
             [] (JArr [JStr "a"; JStr "b"]));
      try reflexivity; [constructor|by eexists|left; by eexists].
Defined.

(** X19.  With well-formed entities, a relationship that lacks
    [source], or has it and lacks [target], or has both and lacks
    [description], stops the loops with [KeyError] for the first of
    these keys that is missing; its [type] is never read. *)
Theorem relationship_without_field_is_key_error
    (v : json) (vs : list json) (es : list Entity)
    (ws : list json) (rs : list Relationship)
    (kvs : list (string * json)) (rest : list json) :
  getitem v "entities" = Ok (JArr vs) ->
  Forall2 is_entity vs es ->
  getitem v "relationships" = Ok (JArr (ws ++ JObj kvs :: rest)) ->
  Forall2 is_relationship ws rs ->
  (dict_get "source" kvs = None -> load_build v = Err (KeyError "source")) /\
  (is_Some (dict_get "source" kvs) -> dict_get "target" kvs = None ->
     load_build v = Err (KeyError "target")) /\
  (is_Some (dict_get "source" kvs) -> is_Some (dict_get "target" kvs) ->
   dict_get "description" kvs = None ->
     load_build v = Err (KeyError "description")).
Proof.
  intros Hents Fes Hrels Frs.
  assert (Hstop : forall e,
            (forall G, (src ← getitem (JObj kvs) "source";
                        tgt ← getitem (JObj kvs) "target";
                        descr ← getitem (JObj kvs) "description";
                        u ← as_node src;
                        w ← as_node tgt;
                        Ok (add_edge G u w {["relationship" := descr]})) = Err e) ->
            load_build v = Err e).
  { intros e Hbad. unfold load_build. rewrite Hents.
    cbn [mbind result_bind py_iter].
    rewrite (for_each_fold_left is_entity _ add_entity _ _ _ Fes).
    2:{ intros G x y (Hn & Ht & _). unfold has_field in *. by rewrite Hn, Ht. }
    cbn [mbind result_bind]. rewrite Hrels. cbn [mbind result_bind py_iter].
    rewrite (for_each_prefix is_relationship _ add_relationship
               ws rs (JObj kvs :: rest) _ Frs).
    2:{ intros G x y (Hs & Ht & _ & Hd). unfold has_field in *.
        by rewrite Hs, Ht, Hd. }
    cbn [for_each]. by rewrite Hbad. }
  split; [|split].
  - intros Hs. apply Hstop. intros G. unfold getitem. by rewrite Hs.
  - intros [src Hs] Ht. apply Hstop. intros G. unfold getitem. by rewrite Hs, Ht.
  - intros [src Hs] [tgt Ht] Hd. apply Hstop. intros G. unfold getitem.
    by rewrite Hs, Ht, Hd.
Qed.

Lemma relationship_without_field_is_key_error_witness :
  load_build
    (JObj [("entities", JArr []);
           ("relationships",
            JArr [relationship_json rel_accused;
                  JObj [("source", JStr "NPA"); ("target", JStr "Ramaphosa");
                        ("type", JStr "supports")]])])
    = Err (KeyError "description").
Proof.
  apply (relationship_without_field_is_key_error _ [] []
           [relationship_json rel_accused] [rel_accused]
           [("source", JStr "NPA"); ("target", JStr "Ramaphosa");
            ("type", JStr "supports")] []).
  - reflexivity.
  - constructor.
  - reflexivity.
  - repeat constructor.
  - by eexists.
  - by eexists.
  - reflexivity.
Defined.

(** ** Wrapped labels *)

Section WrapText.

Variable fill : string -> nat -> string.

Lemma append_cons c a b : String c a +:+ b = String c (a +:+ b).
Proof. reflexivity. Qed.

Lemma split_on_not_nil sep s : split_on sep s <> [].
Proof.
  destruct s as [|c s]; cbn [split_on]; [done|].
  case_bool_decide; [done|]. by destruct (split_on sep s).
Qed.

Lemma one_line_cons c s :
  one_line (String c s) = true <-> c <> "010"%char /\ one_line s = true.
Proof.
  cbn [one_line]. rewrite andb_true_iff, negb_true_iff, bool_decide_eq_false.
  done.
Qed.

Lemma split_one_line s : one_line s = true -> split_on "010" s = [s].
Proof.
  induction s as [|c s IH]; [done|].
  intros [Hc Hs]%one_line_cons. cbn [split_on].
  rewrite bool_decide_false by done. by rewrite IH.
Qed.

Lemma split_append_line line rest :
  one_line line = true ->
  split_on "010" (line +:+ nl +:+ rest) = line :: split_on "010" rest.
Proof.
  induction line as [|c line IH].
  - intros _. change (EmptyString +:+ nl +:+ rest) with (String "010" rest).
    cbn [split_on]. by rewrite bool_decide_true.
  - intros [Hc Hs]%one_line_cons. rewrite append_cons. cbn [split_on].
    rewrite bool_decide_false by done. by rewrite IH.
Qed.

Lemma split_join lines :
  lines <> [] ->
  Forall (fun line => one_line line = true) lines ->
  split_on "010" (String.concat nl lines) = lines.
Proof.
  induction lines as [|line lines IH]; [done|]. intros _ Hall.
  apply Forall_cons in Hall as [Hline Hall].
  destruct lines as [|line' lines].
  - by apply split_one_line.
  - change (String.concat nl (line :: line' :: lines))
      with (line +:+ nl +:+ String.concat nl (line' :: lines)).
    rewrite split_append_line by done. by rewrite IH.
Qed.

Lemma pieces_one_line s : Forall (fun piece => one_line piece = true) (split_on "010" s).
Proof.
  induction s as [|c s IH]; cbn [split_on].
  - by constructor.
  - case_bool_decide as Hc; [by constructor|].
    destruct (split_on "010" s) as [|piece pieces].
    + constructor; [by apply one_line_cons|constructor].
    + apply Forall_cons in IH as [Hp Hps]. constructor; [|done].
      by apply one_line_cons.
Qed.

Lemma one_line_append a b : one_line (a +:+ b) = one_line a && one_line b.
Proof.
  induction a as [|c a IH]; [done|].
  rewrite append_cons. cbn [one_line]. by rewrite IH, andb_assoc.
Qed.

Lemma str_mul_add s a b : str_mul s (a + b) = str_mul s a +:+ str_mul s b.
Proof.
  induction a as [|a IH]; [done|].
  cbn [str_mul Nat.add]. by rewrite IH, append_assoc.
Qed.

Lemma str_mul_spaces k : str_mul (str_mul " " k) 2 = str_mul " " (2 * k).
Proof.
  cbn [str_mul]. rewrite append_empty_r.
  replace (2 * k) with (k + k) by lia. by rewrite str_mul_add.
Qed.

Lemma one_line_spaces k : one_line (str_mul " " k) = true.
Proof.
  induction k as [|k IH]; [done|]. cbn [str_mul]. by rewrite one_line_append, IH.
Qed.

Lemma length_append a b :
  String.length (a +:+ b) = String.length a + String.length b.
Proof.
  induction a as [|c a IH]; [done|]. rewrite append_cons. cbn [String.length].
  by rewrite IH.
Qed.

Lemma length_spaces k : String.length (str_mul " " k) = k.
Proof.
  induction k as [|k IH]; [done|]. cbn [str_mul].
  by rewrite length_append, IH.
Qed.

Lemma wrap_text_split text width :
  split_on "010" (wrap_text fill text width) =
    imap (fun i line => str_mul " " (2 * (i mod 3)) +:+ line)
         (split_on "010" (fill text width)).
Proof.
  unfold wrap_text. cbv zeta.
  rewrite (imap_ext _ (fun i line => str_mul " " (2 * (i mod 3)) +:+ line))
    by (intros; by rewrite str_mul_spaces).
  apply split_join.
  - intros Hnil. apply (f_equal length) in Hnil. rewrite length_imap in Hnil.
    by destruct (split_on "010" (fill text width)) eqn:Hs;
      [apply split_on_not_nil in Hs|].
  - apply Forall_forall. intros line Hin.
    apply elem_of_lookup_imap in Hin as (i & piece & -> & Hpiece).
    rewrite one_line_append, one_line_spaces. cbn [andb].
    pose proof (pieces_one_line (fill text width)) as Hall.
    rewrite Forall_forall in Hall. apply Hall. by eapply list_elem_of_lookup_2.
Qed.

(** X20.  The text [wrap_text] returns has as many lines as the
    wrapped text, and its line number [i] (from 0) is the wrapped line
    behind 0, 2 or 4 spaces, in turn: indenting adds no line break.
    When no wrapped line is longer than the width, no line of the
    result is longer than the width plus four. *)
Theorem wrap_text_indents_each_line (text : string) (width : nat) :
  let wrapped := split_on "010" (fill text width) in
  let lines := split_on "010" (wrap_text fill text width) in
  length lines = length wrapped /\
  (forall i line, wrapped !! i = Some line ->
     lines !! i = Some (str_mul " " (2 * (i mod 3)) +:+ line)) /\
  ((forall line, line ∈ wrapped -> String.length line <= width) ->
   forall line, line ∈ lines -> String.length line <= width + 4).
Proof.
  intros wrapped lines. unfold lines. rewrite wrap_text_split. fold wrapped.
  split; [apply length_imap|]. split.
  - intros i line Hi. by rewrite list_lookup_imap, Hi.
  - intros Hwidth line Hin.
    apply elem_of_lookup_imap in Hin as (i & piece & -> & Hpiece).
    rewrite length_append, length_spaces.
    assert (String.length piece <= width)
      by (apply Hwidth; by eapply list_elem_of_lookup_2).
    assert (i mod 3 < 3) by (apply Nat.mod_upper_bound; lia).
    lia.
Qed.

(** X21.  A text that wraps to a single line is returned as
    [textwrap.fill] gives it: the first line is never indented. *)
Theorem wrap_text_keeps_a_single_line (text : string) (width : nat) :
  one_line (fill text width) = true ->
  wrap_text fill text width = fill text width.
Proof.
  intros Hone. unfold wrap_text. cbv zeta. by rewrite split_one_line.
Qed.

End WrapText.

Lemma wrap_text_indents_each_line_witness :
  wrap_text (fun _ _ => "to" +:+ nl +:+ "be" +:+ nl +:+ "or" +:+ nl +:+ "not") "x" 25
    = "to" +:+ nl +:+ "  be" +:+ nl +:+ "    or" +:+ nl +:+ "not" /\
  forall line,
    line ∈ split_on "010" (wrap_text two_line_fill "anything" 25) ->
    String.length line <= 25 + 4.
Proof.
  split; [vm_compute; reflexivity|].
  apply (wrap_text_indents_each_line two_line_fill "anything" 25).
  intros line Hin. vm_compute in Hin.
  repeat (apply elem_of_cons in Hin as [->|Hin]; [vm_compute; lia|]).
  by apply elem_of_nil in Hin.
Defined.

Lemma wrap_text_keeps_a_single_line_witness :
  wrap_text no_fill "Cradock Four" 25 = "Cradock Four".
Proof.
  apply (wrap_text_keeps_a_single_line no_fill "Cradock Four" 25). reflexivity.
Defined.

(** ** The labels of the drawing *)

(** A dict comprehension over a dict visits each key once, so the dict
    it makes does not depend on the order of the visit. *)
Section LabelDicts.

Context {K : Type} `{Countable K} {V : Type}.
Implicit Types (f : K -> V -> result string) (d : gmap K V).

Lemma comprehension_entries f (g : K -> V -> string) (l : list (K * V))
    (acc : gmap K string) :
  NoDup l.*1 ->
  (forall k v, (k, v) ∈ l -> f k v = Ok (g k v)) ->
  exists m,
    for_each (fun acc kv => label ← f (fst kv) (snd kv); Ok (<[fst kv := label]> acc))
             l acc = Ok m /\
    forall k, m !! k = match (list_to_map l : gmap K V) !! k with
                       | Some v => Some (g k v)
                       | None => acc !! k
                       end.
Proof.
  revert acc. induction l as [|[k0 v0] l IH]; intros acc Hnd Hf.
  - exists acc. split; [done|]. intros k. cbn [list_to_map foldr].
    by rewrite lookup_empty.
  - cbn [fmap list_fmap fst] in Hnd. apply NoDup_cons in Hnd as [Hk0 Hnd].
    cbn [for_each fst snd]. rewrite (Hf k0 v0) by (apply elem_of_cons; by left).
    cbn [mbind result_bind].
    destruct (IH (<[k0 := g k0 v0]> acc) Hnd) as (m & Hm & Hlook).
    { intros k v Hin. apply Hf. apply elem_of_cons; by right. }
    exists m. split; [done|]. intros k. rewrite Hlook.
    cbn [list_to_map foldr uncurry fst snd].
    destruct (decide (k = k0)) as [->|Hne].
    + rewrite lookup_insert_eq.
      rewrite (not_elem_of_list_to_map_1 l k0 Hk0). by rewrite lookup_insert_eq.
    + by rewrite !lookup_insert_ne by done.
Qed.

Lemma comprehension_ok f (g : K -> V -> string) d :
  (forall k v, d !! k = Some v -> f k v = Ok (g k v)) ->
  comprehension f d = Ok (map_imap (fun k v => Some (g k v)) d).
Proof.
  intros Hf. unfold comprehension.
  destruct (comprehension_entries f g (map_to_list d) ∅) as (m & -> & Hm).
  - apply NoDup_fst_map_to_list.
  - intros k v Hin. apply Hf. by apply elem_of_map_to_list.
  - f_equal. apply map_eq. intros k.
    rewrite Hm, list_to_map_to_list, map_lookup_imap.
    destruct (d !! k); [done|]. by rewrite lookup_empty.
Qed.

Lemma comprehension_entries_err f e (l : list (K * V)) (acc : gmap K string) :
  (forall k v, (k, v) ∈ l -> f k v = Err e \/ exists s, f k v = Ok s) ->
  (exists k v, (k, v) ∈ l /\ f k v = Err e) ->
  for_each (fun acc kv => label ← f (fst kv) (snd kv); Ok (<[fst kv := label]> acc))
           l acc = Err e.
Proof.
  revert acc. induction l as [|[k0 v0] l IH]; intros acc Hf (k & v & Hin & Hbad).
  - by apply elem_of_nil in Hin.
  - cbn [for_each fst snd].
    destruct (Hf k0 v0) as [Hk0|[s Hk0]]; [apply elem_of_cons; by left| |];
      rewrite Hk0; cbn [mbind result_bind]; [done|].
    apply IH.
    + intros k' v' Hin'. apply Hf. apply elem_of_cons; by right.
    + apply elem_of_cons in Hin as [Heq|Hin]; [|by eauto].
      inversion Heq; subst. congruence.
Qed.

Lemma comprehension_err f e d :
  (forall k v, d !! k = Some v -> f k v = Err e \/ exists s, f k v = Ok s) ->
  (exists k v, d !! k = Some v /\ f k v = Err e) ->
  comprehension f d = Err e.
Proof.
  intros Hf (k & v & Hk & Hbad). apply comprehension_entries_err.
  - intros k' v' Hin. apply Hf. by apply elem_of_map_to_list.
  - exists k, v. split; [by apply elem_of_map_to_list|done].
Qed.

End LabelDicts.

(** [nx.get_edge_attributes] read by edge. *)
Lemma get_edge_attributes_lookup G name u v :
  get_edge_attributes G name !! (u, v) = edge_data G u v ≫= (.!! name).
Proof.
  unfold get_edge_attributes, edge_data. revert u v.
  apply (map_fold_weak_ind
    (fun (acc : gmap (node * node) json) (adj : gmap node (gmap node attrs)) =>
       forall u v, acc !! (u, v) = (adj !! u ≫= (.!! v)) ≫= (.!! name))).
  - intros u v. by rewrite !lookup_empty.
  - intros u0 nbrs adj acc Hu0 IH.
    apply (map_fold_weak_ind
      (fun (acc' : gmap (node * node) json) (nb : gmap node attrs) =>
         forall u v, acc' !! (u, v) =
                     (<[u0 := nb]> adj !! u ≫= (.!! v)) ≫= (.!! name))).
    + intros u v. rewrite IH. rewrite lookup_insert.
      destruct (decide (u0 = u)) as [<-|]; [|done].
      rewrite Hu0. simpl. by rewrite lookup_empty.
    + intros v0 d nb acc' Hv0 IH' u v.
      rewrite lookup_insert. destruct (decide (u0 = u)) as [<-|Hu].
      * simpl. rewrite lookup_insert. destruct (decide (v0 = v)) as [<-|Hv].
        -- simpl. destruct (d !! name) eqn:Hd.
           ++ by rewrite lookup_insert_eq.
           ++ rewrite IH'. rewrite lookup_insert_eq. simpl.
              by rewrite Hv0.
        -- destruct (d !! name).
           ++ rewrite lookup_insert_ne by congruence.
              rewrite IH'. by rewrite lookup_insert_eq.
           ++ rewrite IH'. by rewrite lookup_insert_eq.
      * destruct (d !! name).
        -- rewrite lookup_insert_ne by congruence.
           rewrite IH'. by rewrite lookup_insert_ne.
        -- rewrite IH'. by rewrite lookup_insert_ne.
Qed.

Lemma comprehension_error_of {K : Type} `{Countable K} {V : Type}
    (f : K -> V -> result string) (d : gmap K V) e :
  comprehension f d = Err e -> exists k v, d !! k = Some v /\ f k v = Err e.
Proof.
  unfold comprehension.
  assert (Hl : forall l (acc : gmap K string),
    for_each (fun acc kv => label ← f (fst kv) (snd kv); Ok (<[fst kv := label]> acc))
             l acc = Err e ->
    exists k v, (k, v) ∈ l /\ f k v = Err e).
  { induction l as [|[k0 v0] l IH]; intros acc; cbn [for_each fst snd]; [done|].
    destruct (f k0 v0) as [s|e0] eqn:Hk0; cbn [mbind result_bind].
    - intros (k & v & Hin & Hbad)%IH. exists k, v. split; [|done].
      apply elem_of_cons. by right.
    - intros [= ->]. exists k0, v0. split; [|done]. apply elem_of_cons. by left. }
  intros (k & v & Hin & Hbad)%Hl. exists k, v.
  split; [by apply elem_of_map_to_list|done].
Qed.

Section Drawing.

Variable fill : string -> nat -> string.
Variable draw : DiGraph -> gmap node string -> gmap (node * node) string -> result unit.

Lemma nodes_of_build_are_strings D n :
  is_Some (_node (build D) !! n) <->
  exists s, n = NStr s /\ (s ∈ entity_names D \/ s ∈ endpoints D).
Proof.
  rewrite <- (elem_of_dom (D:=gset node)), nodes_build.
  rewrite elem_of_union, !elem_of_list_to_set, !list_elem_of_fmap.
  naive_solver.
Qed.

Lemma edge_data_build D u v a :
  edge_data (build D) u v = Some a ->
  exists s t d, u = NStr s /\ v = NStr t /\
                last_description (relationships D) s t = Some d /\
                a = relationship_attr d.
Proof.
  intros He.
  assert (Hcons : consistent (build D)).
  { apply (load_build_consistent (document_json D)).
    apply load_build_document, is_document_json. }
  destruct Hcons as (_ & _ & _ & Hends).
  destruct (Hends u v) as [Hu Hv]; [by eexists|].
  apply nodes_of_build_are_strings in Hu as (s & -> & _).
  apply nodes_of_build_are_strings in Hv as (t & -> & _).
  unfold build in He. rewrite edge_data_build_from in He.
  destruct (last_description (relationships D) s t) as [d|] eqn:Hd; [|done].
  injection He as <-. by exists s, t, d.
Qed.

(** X22.  For a document that follows the schema the labels are made
    without error and the drawing calls receive the graph with them:
    the node labels have a key for each node and no other, the label of
    a node being its wrapped name; the edge labels have a key for each
    edge and no other, the label of an edge being the wrapped
    description of the last relationship on its ordered pair. *)
Theorem document_graph_is_labelled (v : json) (D : ExtractionDocument) :
  is_document v D ->
  exists G nodes edges,
    live_build v = Ok G /\
    node_labels fill G = Ok nodes /\
    edge_labels fill G = Ok edges /\
    show fill draw G = draw G nodes edges /\
    (forall n, is_Some (nodes !! n) <-> has_node G n = true) /\
    (forall s, has_node G (NStr s) = true ->
               nodes !! NStr s = Some (wrap_text fill s 25)) /\
    (forall u t, is_Some (edges !! (u, t)) <-> has_edge G u t = true) /\
    (forall s t d, last_description (relationships D) s t = Some d ->
                   edges !! (NStr s, NStr t) = Some (wrap_text fill d 25)).
Proof.
  intros Hv.
  set (gn := fun (n : node) (_ : attrs) =>
               match n with NStr s => wrap_text fill s 25 | _ => EmptyString end).
  set (ge := fun (_ : node * node) (x : json) =>
               match x with JStr s => wrap_text fill s 25 | _ => EmptyString end).
  assert (Hnodes : node_labels fill (build D)
                   = Ok (map_imap (fun n a => Some (gn n a)) (_node (build D)))).
  { apply comprehension_ok. intros n a Hn.
    destruct (proj1 (nodes_of_build_are_strings D n)) as (s & -> & _); [by eexists|].
    done. }
  assert (Hedges : edge_labels fill (build D)
                   = Ok (map_imap (fun e x => Some (ge e x))
                           (get_edge_attributes (build D) "relationship"))).
  { apply comprehension_ok. intros [u t] x Hx.
    rewrite get_edge_attributes_lookup in Hx.
    destruct (edge_data (build D) u t) as [a|] eqn:He; [|done]. simpl in Hx.
    apply edge_data_build in He as (s & t' & d & -> & -> & _ & ->).
    unfold relationship_attr in Hx. rewrite lookup_singleton_eq in Hx.
    by injection Hx as <-. }
  eexists (build D), _, _.
  split; [by rewrite live_build_load_build, (load_build_document v D Hv)|].
  split; [exact Hnodes|]. split; [exact Hedges|].
  split; [unfold show; by rewrite Hnodes, Hedges|].
  split; [|split; [|split]].
  - intros n. unfold has_node. rewrite bool_decide_eq_true, map_lookup_imap.
    destruct (_node (build D) !! n); simpl; [by split; eauto|].
    split; by intros [? ?].
  - intros s Hs. unfold has_node in Hs. apply bool_decide_eq_true in Hs as [a Ha].
    by rewrite map_lookup_imap, Ha.
  - intros u t. unfold has_edge. rewrite bool_decide_eq_true.
    rewrite map_lookup_imap, get_edge_attributes_lookup.
    destruct (edge_data (build D) u t) as [a|] eqn:He; simpl.
    + apply edge_data_build in He as (s & t' & d & -> & -> & _ & ->).
      unfold relationship_attr. rewrite lookup_singleton_eq. simpl.
      split; eauto.
    + split; by intros [? ?].
  - intros s t d Hd. rewrite map_lookup_imap, get_edge_attributes_lookup.
    unfold build. rewrite edge_data_build_from, Hd. simpl.
    unfold relationship_attr. by rewrite lookup_singleton_eq.
Qed.

(** X23.  When a node of the graph is not a string (a name that is a
    number or a boolean), or the description on an edge is not a
    string, making the labels raises [AttributeError] and none of the
    drawing calls is reached, whatever they would have done. *)
Theorem label_that_is_no_string_stops_the_drawing (G : DiGraph) :
  (exists n, has_node G n = true /\ forall s, n <> NStr s) \/
  (exists u v a x, edge_data G u v = Some a /\ a !! "relationship" = Some x /\
                   forall s, x <> JStr s) ->
  show fill draw G = Err AttributeError.
Proof.
  assert (Hnode : forall n (a : attrs) e, wrap_node fill n = Err e -> e = AttributeError).
  { intros [] a e; simpl; congruence. }
  assert (Hvalue : forall x e, wrap_value fill x = Err e -> e = AttributeError).
  { intros [] e; simpl; congruence. }
  intros Hbad. unfold show.
  destruct (node_labels fill G) as [nodes|e] eqn:Hn; cbn [mbind result_bind].
  - destruct (edge_labels fill G) as [edges|e] eqn:He; cbn [mbind result_bind].
    + exfalso. destruct Hbad as [(n & Hin & Hns)|(u & v & a & x & Hd & Hx & Hxs)].
      * unfold has_node in Hin. apply bool_decide_eq_true in Hin as [a Ha].
        assert (node_labels fill G = Err AttributeError) as Hn'; [|congruence].
        apply comprehension_err.
        -- intros k _ _. destruct k; simpl; eauto.
        -- exists n, a. split; [done|]. destruct n; simpl; [by destruct (Hns s)|done..].
      * assert (edge_labels fill G = Err AttributeError) as He'; [|congruence].
        apply comprehension_err.
        -- intros k y _. destruct y; simpl; eauto.
        -- exists (u, v), x. split.
           ++ by rewrite get_edge_attributes_lookup, Hd.
           ++ destruct x; simpl; try done. by destruct (Hxs s).
    + apply comprehension_error_of in He as (k & y & _ & Hy).
      by rewrite (Hvalue y e Hy).
  - apply comprehension_error_of in Hn as (k & y & _ & Hy).
    by rewrite (Hnode k y e Hy).
Qed.

End Drawing.

Lemma document_graph_is_labelled_witness :
  exists G nodes edges,
    live_build (document_json example_document) = Ok G /\
    show no_fill no_draw G = no_draw G nodes edges /\
    nodes !! NStr "NPA" = Some "NPA" /\
    edges !! (NStr "Cradock Four", NStr "Ramaphosa") = Some "sue for damages".
Proof.
  destruct (document_graph_is_labelled no_fill no_draw
              (document_json example_document) example_document)
    as (G & nodes & edges & HG & _ & _ & Hshow & _ & Hn & _ & He).
  - solve_is_document.
  - exists G, nodes, edges. split; [exact HG|]. split; [exact Hshow|]. split.
    + rewrite (Hn "NPA"); [reflexivity|].
      vm_compute in HG. injection HG as <-. vm_compute. reflexivity.
    + rewrite (He "Cradock Four" "Ramaphosa" "sue for damages"); reflexivity.
Defined.

Lemma label_that_is_no_string_stops_the_drawing_witness :
  exists G, live_build odd_graph_data = Ok G /\
            show no_fill no_draw G = Err AttributeError.
Proof.
  destruct (live_build odd_graph_data) as [G|e] eqn:Hbuild.
  - exists G. split; [reflexivity|].
    apply (label_that_is_no_string_stops_the_drawing no_fill no_draw G).
    left. exists (NInt 1). split; [|done].
    vm_compute in Hbuild. injection Hbuild as <-. vm_compute. reflexivity.
  - vm_compute in Hbuild. discriminate Hbuild.
Defined.
